(** * MCP2.0: capability authorization, admission pipeline and service frontings

    A shallow embedding of [auth.py], [middleware.py], [registry_server.py],
    [event_bus_server.py] and [context_tool_server.py], and the properties of
    the specification checked against it.

    Conventions of the embedding.
    - A Python dictionary with string keys is a [gmap string _].
    - Claims values (the [Any] of [Dict[str, Any]]) range over [None],
      integers, strings and lists; booleans, floats and nested objects do not
      occur in the claims this development reasons about.
    - A raised exception is the [Raise] branch of [result]; module globals are
      fields of a state record threaded by the monad [M].
    - [time.time()] is read once per call and is an integer number of seconds
      (field [time_time] of the environment of the call).
    - Python [bytes] and ASCII [str] are both [string] (a sequence of 8-bit
      characters); [.encode("utf-8")] is the identity on them.
    - Collaborators outside the repository (python-jose, the JSON parser, the
      protobuf runtime, CPython's float printer) are the fields of the class
      [Collaborators]; what the network, the SQL session and the broker
      answer during one call is the environment [Env] of that call. *)

From Stdlib Require Import ZArith Ascii Floats SpecFloat DecimalString.
From stdpp Require Import gmap strings list fin_maps.

Open Scope string_scope.
Open Scope list_scope.

(** ** Python values, exceptions, status codes *)

#[warnings="-register-all"]
Inductive value : Type :=
  | VNone
  | VInt (z : Z)
  | VStr (s : string)
  | VList (l : list value).

Inductive StatusCode : Type :=
  | OK | UNKNOWN | INVALID_ARGUMENT | PERMISSION_DENIED
  | UNAUTHENTICATED | UNAVAILABLE | INTERNAL.

(** [RpcAbort c] is the exception raised by [context.abort(c, details)];
    [BackendError] stands for whatever the HTTP client or the SQL session
    raise. *)
Inductive exn : Type :=
  | JWTError (msg : string)
  | ValueError (msg : string)
  | TypeError
  | AttributeError
  | KeyError (key : string)
  | OverflowError
  | BackendError
  | RpcAbort (code : StatusCode).

Inductive result (A : Type) : Type :=
  | Ok (a : A)
  | Raise (e : exn).
Arguments Ok {A} a.
Arguments Raise {A} e.

Definition is_ok {A} (r : result A) : bool :=
  match r with Ok _ => true | Raise _ => false end.

(** The status a caller observes: an abort carries its code, any other
    exception that leaves the handler is reported as [UNKNOWN]. *)
Definition rpc_status {A} (r : result A) : StatusCode :=
  match r with
  | Ok _ => OK
  | Raise (RpcAbort c) => c
  | Raise _ => UNKNOWN
  end.

(** ** Strings *)

(** [s.startswith(p)] *)
Fixpoint startswith (s p : string) {struct p} : bool :=
  match p, s with
  | EmptyString, _ => true
  | String _ _, EmptyString => false
  | String b p', String a s' => if decide (a = b) then startswith s' p' else false
  end.

(** [s.endswith(suffix)]: some tail of [s] is [suffix] *)
Fixpoint endswith (s suffix : string) : bool :=
  bool_decide (s = suffix)
  || match s with
     | EmptyString => false
     | String _ s' => endswith s' suffix
     end.

(** [s[:-1]] *)
Fixpoint drop_last (s : string) : string :=
  match s with
  | EmptyString => EmptyString
  | String _ EmptyString => EmptyString
  | String a s' => String a (drop_last s')
  end.

(** [needle in haystack] for two strings *)
Fixpoint str_contains (haystack needle : string) : bool :=
  startswith haystack needle
  || match haystack with
     | EmptyString => false
     | String _ h' => str_contains h' needle
     end.

(** The characters of a string, as Python iterates over it. *)
Fixpoint chars (s : string) : list value :=
  match s with
  | EmptyString => []
  | String a s' => VStr (String a EmptyString) :: chars s'
  end.

(** ** Python operators on values *)

(** [a == b] *)
Fixpoint value_eqb (a b : value) : bool :=
  match a, b with
  | VNone, VNone => true
  | VInt x, VInt y => bool_decide (x = y)
  | VStr x, VStr y => bool_decide (x = y)
  | VList xs, VList ys =>
      (fix go (xs ys : list value) : bool :=
         match xs, ys with
         | [], [] => true
         | x :: xs', y :: ys' => value_eqb x y && go xs' ys'
         | _, _ => false
         end) xs ys
  | _, _ => false
  end.

(** truth value of [v] *)
Definition truthy (v : value) : bool :=
  match v with
  | VNone => false
  | VInt z => negb (bool_decide (z = 0%Z))
  | VStr s => negb (bool_decide (s = ""))
  | VList l => negb (bool_decide (l = []))
  end.

(** [for x in v]: the sequence iterated, or [TypeError]. *)
Definition py_iter (v : value) : result (list value) :=
  match v with
  | VList l => Ok l
  | VStr s => Ok (chars s)
  | VNone | VInt _ => Raise TypeError
  end.

(** [d.get(k)] and [d.get(k, dflt)] *)
Definition py_get (d : gmap string value) (k : string) : value :=
  default VNone (d !! k).
Definition py_get_default (d : gmap string value) (k : string) (dflt : value) : value :=
  default dflt (d !! k).

(** [d[k]] *)
Definition py_index (d : gmap string value) (k : string) : result value :=
  match d !! k with
  | Some v => Ok v
  | None => Raise (KeyError k)
  end.

(** [x in v] for a string [x] *)
Definition py_in (x : string) (v : value) : result bool :=
  match v with
  | VList l => Ok (existsb (λ y, value_eqb y (VStr x)) l)
  | VStr s => Ok (str_contains s x)
  | VNone | VInt _ => Raise TypeError
  end.

Definition hashable (v : value) : bool :=
  match v with VList _ => false | _ => true end.

(** [set(v)]: the elements, duplicates left in (membership is all that is
    asked of the result). *)
Definition py_set (v : value) : result (list value) :=
  match py_iter v with
  | Ok l => if forallb hashable l then Ok l else Raise TypeError
  | Raise e => Raise e
  end.

(** [a.issubset(b)] *)
Definition issubset (a b : list value) : bool :=
  forallb (λ x, existsb (value_eqb x) b) a.

(** [s.split(sep, maxsplit)]; [None] is the unlimited split of [s.split(sep)] *)
Fixpoint str_split (sep : ascii) (maxsplit : option nat) (s : string) : list string :=
  match s with
  | EmptyString => [EmptyString]
  | String a s' =>
      if bool_decide (a = sep) && negb (bool_decide (maxsplit = Some 0))
      then EmptyString :: str_split sep (pred <$> maxsplit) s'
      else match str_split sep maxsplit s' with
           | h :: t => String a h :: t
           | [] => [String a EmptyString]
           end
  end.

(** [int(s)] for a decimal literal with an optional sign. Python also
    accepts surrounding whitespace and underscores between digits; those
    spellings are reported as [ValueError] here. *)
Definition py_int (s : string) : result Z :=
  let body :=
    match s with
    | String "+" (String c _ as rest) => if bool_decide (c = "-"%char) then "" else rest
    | _ => s
    end in
  match NilZero.int_of_string body with
  | Some i => Ok (Z.of_int i)
  | None => Raise (ValueError "invalid literal for int()")
  end.

(** [float(z)]: round to nearest even, [OverflowError] beyond the doubles. *)
Definition py_float (z : Z) : result float :=
  let f := SF2Prim (binary_normalize prec emax z 0 false) in
  if is_infinity f then Raise OverflowError else Ok f.

(** the integer a double denotes, when it denotes one *)
Definition float_integral (f : float) : option Z :=
  match Prim2SF f with
  | S754_finite sg m e =>
      let mag :=
        if (0 <=? e)%Z then Some (Z.pos m * 2 ^ e)%Z
        else if (Z.pos m mod 2 ^ (- e) =? 0)%Z then Some (Z.pos m / 2 ^ (- e))%Z
        else None in
      (λ n : Z, if sg then (- n)%Z else n) <$> mag
  | _ => None
  end.

(** ** Collaborators outside the repository *)

Class Collaborators : Type := {
  (** [jose_jwt.get_unverified_header(token)] *)
  get_unverified_header : string → result (gmap string value);
  (** [jose_jwt.decode(token, key, algorithms=["RS256"], audience=, issuer=)]
      at a given time *)
  jose_decode : string → gmap string value → string → string → Z →
                result (gmap string value);
  (** [json.loads] on a metadata column *)
  json_loads : string → result value;
  (** whether the protobuf runtime takes an object for the [metadata] field
      of [ContextResponse] *)
  metadata_accepted : value → bool;
  (** [str(tuple(sorted(parameters.items())))] *)
  params_repr : gmap string string → string;
  (** [payload.decode("utf-8", errors="ignore")] *)
  decode_utf8_ignore : string → string;
  (** [str(x)] of a double that is not a whole number below [1e16] *)
  float_repr : float → string
}.

(** [str(x)] for a double: whole numbers below [1e16] in magnitude print as
    their digits followed by [.0]; the rest is CPython's shortest
    round-trip printer. *)
Definition str_float `{Ext : Collaborators} (f : float) : string :=
  match Prim2SF f with
  | S754_zero false => "0.0"
  | S754_zero true => "-0.0"
  | _ =>
      match float_integral f with
      | Some n =>
          if (Z.abs n <? 10 ^ 16)%Z
          then NilZero.string_of_int (Z.to_int n) +:+ ".0"
          else float_repr f
      | None => float_repr f
      end
  end.

Record ContextEntry : Type := {
  context_key : string;
  serialized_value : string;
  metadata_json : option string
}.

(** What the world answers during one call. *)
Record Env : Type := {
  (** [time.time()] *)
  time_time : Z;
  (** [context.peer()] *)
  peer : string;
  (** [requests.get(JWKS_ENDPOINT, timeout=5)] followed by
      [raise_for_status()] and [.json()] *)
  jwks_endpoint : result (gmap string (list (gmap string value)));
  (** [session.get(ContextEntry, key)] *)
  session_get : string → result (option ContextEntry);
  (** whether [redis_client.publish] goes through *)
  redis_publish_ok : bool
}.

(** One [TELEMETRY.log] record. [latency_ms] and the per-operation keys
    [found], [topic], [tool], [server_name] are left out, and so is the
    exception text that follows the status word. *)
Record TelemetryEntry : Type := {
  method : string;
  client : value;
  status : string;
  cache_hit : option bool
}.

#[global] Instance result_ret : MRet result := λ _ a, Ok a.
#[global] Instance result_bind : MBind result :=
  λ _ _ k r, match r with Ok a => k a | Raise e => Raise e end.

#[global] Instance StatusCode_eq_dec : EqDecision StatusCode.
Proof. solve_decision. Defined.
#[global] Instance exn_eq_dec : EqDecision exn.
Proof. solve_decision. Defined.
#[global] Instance result_eq_dec {A} `{EqDecision A} : EqDecision (result A).
Proof. solve_decision. Defined.

(** ** A state-and-exception monad for module globals *)

Definition M (S A : Type) : Type := S → result A * S.

Definition ret {S A} (a : A) : M S A := λ s, (Ok a, s).
Definition raise {S A} (e : exn) : M S A := λ s, (Raise e, s).
Definition bind {S A B} (m : M S A) (k : A → M S B) : M S B :=
  λ s, match m s with
       | (Ok a, s') => k a s'
       | (Raise e, s') => (Raise e, s')
       end.
Definition lift {S A} (r : result A) : M S A := λ s, (r, s).
Definition get_state {S} : M S S := λ s, (Ok s, s).
Definition modify {S} (f : S → S) : M S unit := λ s, (Ok tt, f s).

(** [try: body  except Exception as e: handler] *)
Definition try_except {S A} (body : M S A) (handler : exn → M S A) : M S A :=
  λ s, match body s with
       | (Ok a, s') => (Ok a, s')
       | (Raise e, s') => handler e s'
       end.

(** [context.abort(code, details)] *)
Definition abort {S A} (code : StatusCode) : M S A := raise (RpcAbort code).

(** [if not ok: context.abort(code, ...)] *)
Definition abort_unless {S} (ok : bool) (code : StatusCode) : M S unit :=
  if ok then ret tt else abort code.

(** running a computation on one component of a larger state *)
Definition zoom {S T A} (proj : S → T) (upd : T → S → S) (m : M T A) : M S A :=
  λ s, let '(r, t') := m (proj s) in (r, upd t' s).

#[global] Instance M_ret {S} : MRet (M S) := λ _ a, ret a.
#[global] Instance M_bind {S} : MBind (M S) := λ _ _ k m, bind m k.

(** ** auth.py *)

Module Auth.

Definition OIDC_ISSUER : string := "https://your-idp.example.com".
Definition JWKS_TTL_SECONDS : Z := 3600.

(** The module globals, and the number of GETs sent to [JWKS_ENDPOINT] so
    far. *)
Record AuthState : Type := {
  _JWKS_CACHE : option (gmap string (list (gmap string value)));
  _JWKS_LAST_FETCH : Z;
  jwks_requests : nat
}.

Definition initial : AuthState :=
  {| _JWKS_CACHE := None; _JWKS_LAST_FETCH := 0; jwks_requests := 0 |}.

Definition _fetch_jwks (env : Env) : M AuthState (gmap string (list (gmap string value))) :=
  λ st,
    let now := time_time env in
    let refetch :=
      match jwks_endpoint env with
      | Ok doc =>
          (Ok doc, {| _JWKS_CACHE := Some doc; _JWKS_LAST_FETCH := now;
                      jwks_requests := S (jwks_requests st) |})
      | Raise e =>
          (Raise e, {| _JWKS_CACHE := _JWKS_CACHE st;
                       _JWKS_LAST_FETCH := _JWKS_LAST_FETCH st;
                       jwks_requests := S (jwks_requests st) |})
      end in
    match _JWKS_CACHE st with
    | None => refetch
    | Some cached =>
        if bool_decide (now - _JWKS_LAST_FETCH st > JWKS_TTL_SECONDS)%Z
        then refetch
        else (Ok cached, st)
    end.

(** [for jwk in jwks.get("keys", []): if jwk.get("kid") == kid: ... break] *)
Fixpoint find_jwk (keys : list (gmap string value)) (kid : value)
  : option (gmap string value) :=
  match keys with
  | [] => None
  | jwk :: rest =>
      if value_eqb (py_get jwk "kid") kid then Some jwk else find_jwk rest kid
  end.

Section Verify.
Context `{Ext : Collaborators}.

Definition verify_jwt_token (token audience : string) (env : Env)
  : M AuthState (gmap string value) :=
  jwks ← _fetch_jwks env;
  unverified_header ← lift (get_unverified_header token);
  let kid := py_get unverified_header "kid" in
  if negb (truthy kid) then raise (JWTError "Missing 'kid' in token header")
  else
    key_data ←
      match find_jwk (default [] (jwks !! "keys")) kid with
      | Some key_data => mret key_data
      | None =>
          (* [_JWKS_LAST_FETCH = 0] in a function without a [global]
             declaration binds a name local to the function: the module
             global read by [_fetch_jwks] keeps its value. *)
          let _JWKS_LAST_FETCH_local := 0%Z in
          jwks ← _fetch_jwks env;
          match find_jwk (default [] (jwks !! "keys")) kid with
          | Some key_data => mret key_data
          | None =>
              match kid with
              | VStr k => raise (JWTError ("Unable to find matching JWK for kid: " +:+ k))
              | _ => raise TypeError
              end
          end
      end;
    lift (jose_decode token key_data audience OIDC_ISSUER (time_time env)).

End Verify.

Fixpoint has_capability_loop (caps : list value) (required : string) : result bool :=
  match caps with
  | [] => Ok false
  | cap :: rest =>
      if value_eqb cap (VStr required) then Ok true
      else match cap with
           | VStr c =>
               if endswith c "*" then
                 let prefix := drop_last c in
                 if startswith required prefix then Ok true
                 else has_capability_loop rest required
               else has_capability_loop rest required
           | _ => Raise AttributeError
           end
  end.

Definition has_capability (payload : gmap string value) (required : string) : result bool :=
  let caps := py_get_default payload "capabilities" (VList []) in
  match py_iter caps with
  | Ok l => has_capability_loop l required
  | Raise e => Raise e
  end.

Fixpoint has_audience_loop (audiences : list value) (target : string) : bool :=
  match audiences with
  | [] => false
  | aud :: rest =>
      if value_eqb aud (VStr target) then true
      else match aud with
           | VStr a =>
               if endswith a "*" then
                 let prefix := drop_last a in
                 if startswith target prefix then true
                 else has_audience_loop rest target
               else has_audience_loop rest target
           | _ => has_audience_loop rest target
           end
  end.

Definition has_audience (payload : gmap string value) (target : string) : result bool :=
  let aud_claim := py_get payload "aud" in
  let audiences :=
    match aud_claim with
    | VStr _ => Ok [aud_claim]
    | _ => py_iter (if truthy aud_claim then aud_claim else VList [])
    end in
  match audiences with
  | Ok l => Ok (has_audience_loop l target)
  | Raise e => Raise e
  end.

Section Delegation.
Context `{Ext : Collaborators}.

Definition verify_delegation_proof (delegation_jwt delegatee : string)
    (original_token_payload : gmap string value) (env : Env)
  : M AuthState (gmap string value) :=
  payload ← verify_jwt_token delegation_jwt delegatee env;
  if negb (value_eqb (py_get payload "iss") (py_get original_token_payload "iss"))
  then raise (ValueError "Delegation proof 'iss' does not match original token issuer")
  else if negb (value_eqb (py_get payload "sub") (py_get original_token_payload "sub"))
  then raise (ValueError "Delegation proof 'sub' must match original token 'sub'")
  else if negb (value_eqb (py_get payload "delegatee") (VStr delegatee))
  then raise (ValueError ("Delegation proof not intended for this server ("
                         +:+ delegatee +:+ ")"))
  else
    orig_caps ← lift (py_set (py_get_default original_token_payload "capabilities" (VList [])));
    del_caps ← lift (py_set (py_get_default payload "capabilities" (VList [])));
    if negb (issubset del_caps orig_caps)
    then raise (ValueError "Delegated capabilities exceed original token’s capabilities")
    else mret payload.

End Delegation.

End Auth.

(** ** middleware.py *)

Module Middleware.

Record SimpleCache (A : Type) : Type := { store : gmap string A }.
Arguments store {A} _.

Definition SimpleCache_init {A} : SimpleCache A := {| store := ∅ |}.

Definition get {A} (self : SimpleCache A) (key : string) : option A :=
  store self !! key.

(** [set(key, value, ttl)]: [ttl] is accepted and not used. *)
Definition set {A} (self : SimpleCache A) (key : string) (v : A) (ttl : option Z)
  : SimpleCache A :=
  {| store := <[key := v]> (store self) |}.

Record CircuitBreaker : Type := {
  threshold : Z;
  recovery_time : Z;
  failure_count : Z;
  last_failure_time : option Z;
  open : bool
}.

Definition CircuitBreaker_init (threshold recovery_time : Z) : CircuitBreaker :=
  {| threshold := threshold; recovery_time := recovery_time;
     failure_count := 0; last_failure_time := None; open := false |}.

(** [before_call] at time [now]; subtracting [None] from a float is a
    [TypeError]. *)
Definition before_call (now : Z) (self : CircuitBreaker) : result bool :=
  if open self then
    match last_failure_time self with
    | Some t => if bool_decide (now - t > recovery_time self)%Z then Ok true else Ok false
    | None => Raise TypeError
    end
  else Ok true.

Definition after_call (now : Z) (success : bool) (self : CircuitBreaker) : CircuitBreaker :=
  if success then
    {| threshold := threshold self; recovery_time := recovery_time self;
       failure_count := 0; last_failure_time := last_failure_time self;
       open := false |}
  else
    let failure_count' := (failure_count self + 1)%Z in
    {| threshold := threshold self; recovery_time := recovery_time self;
       failure_count := failure_count';
       last_failure_time := Some now;
       open := if bool_decide (failure_count' >= threshold self)%Z then true
               else open self |}.

End Middleware.

(** ** registry_server.py *)

Module Registry.

Definition SERVER_NAME : string := "RegistryServer".

(** The JSON object stored under a registry key; [json.dumps] followed by
    [json.loads] is taken to give the object back. *)
Record RegistryValue : Type := {
  grpc_url : string;
  capabilities : list string;
  registered_at : Z
}.

Record EndpointDescriptor : Type := {
  server_name : string;
  ep_grpc_url : string;
  ep_capabilities : list string
}.

Record LookupRequest : Type := {
  requester_token : string;
  capability_filter : list string
}.

(** [invocation_metadata] is [dict(context.invocation_metadata())]; a key
    that is absent and a key with an empty value are both falsy there. *)
Record RegisterRequest : Type := {
  reg_server_name : string;
  reg_capabilities : list string;
  invocation_metadata : gmap string string
}.

Record RegisterResponse : Type := {
  reg_success : bool;
  reg_message : string
}.

Record State : Type := {
  auth : Auth.AuthState;
  REDIS : gmap string RegistryValue;
  TELEMETRY : list TelemetryEntry
}.

Definition set_auth (a : Auth.AuthState) (s : State) : State :=
  {| auth := a; REDIS := REDIS s; TELEMETRY := TELEMETRY s |}.

Definition log (e : TelemetryEntry) : M State unit :=
  modify (λ s, {| auth := auth s; REDIS := REDIS s; TELEMETRY := TELEMETRY s ++ [e] |}).

Definition _redis_key_for (server_name : string) : string :=
  "mcp2:registry:" +:+ server_name.

Definition register_in_redis (server_name grpc_url : string) (capabilities : list string)
    (env : Env) : M State unit :=
  let key := _redis_key_for server_name in
  let v := {| grpc_url := grpc_url; capabilities := capabilities;
              registered_at := time_time env |} in
  modify (λ s, {| auth := auth s; REDIS := <[key := v]> (REDIS s);
                  TELEMETRY := TELEMETRY s |}).

(** [REDIS.scan_iter(match="mcp2:registry:*")]: every key of the keyspace
    with that prefix, once, with its value. *)
Definition scan_iter (redis : gmap string RegistryValue) : list (string * RegistryValue) :=
  filter (λ kv, startswith kv.1 "mcp2:registry:" = true) (map_to_list redis).

(** [cap == cap_filter or (cap.endswith("*") and cap_filter.startswith(cap[:-1]))] *)
Definition cap_matches (cap cap_filter : string) : bool :=
  bool_decide (cap = cap_filter)
  || (endswith cap "*" && startswith cap_filter (drop_last cap)).

(** The inner [for cap in caps] loop: the list after the loop and whether it
    left through [break]. *)
Fixpoint caps_loop (out : list EndpointDescriptor) (entry : EndpointDescriptor)
    (cap_filter : string) (caps : list string) : list EndpointDescriptor * bool :=
  match caps with
  | [] => (out, false)
  | cap :: rest =>
      if cap_matches cap cap_filter then (out ++ [entry], true)
      else caps_loop out entry cap_filter rest
  end.

(** The [for cap_filter in cap_filters] loop with its [else: continue] and
    [break]. *)
Fixpoint filters_loop (out : list EndpointDescriptor) (entry : EndpointDescriptor)
    (cap_filters caps : list string) : list EndpointDescriptor :=
  match cap_filters with
  | [] => out
  | cap_filter :: rest =>
      let '(out', broke) := caps_loop out entry cap_filter caps in
      if broke then out' else filters_loop out' entry rest caps
  end.

Fixpoint keys_loop (out : list EndpointDescriptor) (keys : list (string * RegistryValue))
    (cap_filters : list string) : list EndpointDescriptor :=
  match keys with
  | [] => out
  | (key, data) :: rest =>
      let server_name := List.last (str_split ":" (Some 2) key) "" in
      let caps := capabilities data in
      let entry := {| server_name := server_name; ep_grpc_url := grpc_url data;
                      ep_capabilities := caps |} in
      keys_loop (filters_loop out entry cap_filters caps) rest cap_filters
  end.

Definition lookup_in_redis (cap_filters : list string) (redis : gmap string RegistryValue)
  : list EndpointDescriptor :=
  keys_loop [] (scan_iter redis) cap_filters.

(** [for entry in matches: if has_audience(payload, name): endpoints.append(...)] *)
Fixpoint endpoints_loop (payload : gmap string value) (matches : list EndpointDescriptor)
    (endpoints : list EndpointDescriptor) : result (list EndpointDescriptor) :=
  match matches with
  | [] => Ok endpoints
  | entry :: rest =>
      match Auth.has_audience payload (server_name entry) with
      | Ok true => endpoints_loop payload rest (endpoints ++ [entry])
      | Ok false => endpoints_loop payload rest endpoints
      | Raise e => Raise e
      end
  end.

Section Servicer.
Context `{Ext : Collaborators}.

Definition Register (request : RegisterRequest) (env : Env) : M State RegisterResponse :=
  let peer := peer env in
  let md := invocation_metadata request in
  let token := default "" (md !! "registration_token") in
  abort_unless (negb (bool_decide (token = ""))) UNAUTHENTICATED;;
  try_except
    (payload ← zoom auth set_auth (Auth.verify_jwt_token token SERVER_NAME env);
     ok ← lift (Auth.has_capability payload "registry:register");
     abort_unless ok PERMISSION_DENIED;;
     let grpc_url := default "" (md !! "grpc-url") in
     abort_unless (negb (bool_decide (grpc_url = ""))) INVALID_ARGUMENT;;
     register_in_redis (reg_server_name request) grpc_url (reg_capabilities request) env;;
     sub ← lift (py_index payload "sub");
     log {| method := "Register"; client := sub; status := "success"; cache_hit := None |};;
     mret {| reg_success := true; reg_message := "Registered successfully" |})
    (λ e,
       log {| method := "Register"; client := VStr peer; status := "failure";
              cache_hit := None |};;
       abort UNAUTHENTICATED).

Definition Lookup (request : LookupRequest) (env : Env)
  : M State (list EndpointDescriptor) :=
  let peer := peer env in
  let token := requester_token request in
  abort_unless (negb (bool_decide (token = ""))) UNAUTHENTICATED;;
  try_except
    (payload ← zoom auth set_auth (Auth.verify_jwt_token token SERVER_NAME env);
     ok ← lift (Auth.has_capability payload "registry:lookup");
     abort_unless ok PERMISSION_DENIED;;
     st ← get_state;
     let matches := lookup_in_redis (capability_filter request) (REDIS st) in
     endpoints ← lift (endpoints_loop payload matches []);
     sub ← lift (py_index payload "sub");
     log {| method := "Lookup"; client := sub; status := "success"; cache_hit := None |};;
     mret endpoints)
    (λ e,
       log {| method := "Lookup"; client := VStr peer; status := "failure";
              cache_hit := None |};;
       abort UNAUTHENTICATED).

End Servicer.

End Registry.

(** ** event_bus_server.py *)

Module EventBus.

Definition SERVER_NAME : string := "EventBusServer".

Record PublishRequest : Type := {
  topic : string;
  event_payload : string;
  publisher_token : string
}.

(** The object handed to [json.dumps] in [Publish]. *)
Record Envelope : Type := {
  env_topic : string;
  env_payload : string;
  sequence_id : Z;
  timestamp : Z
}.

Record EventPublishResponse : Type := {
  success : bool;
  message : string
}.

(** [published] is what the broker has received: channel and message. *)
Record State : Type := {
  auth : Auth.AuthState;
  TOPIC_COUNTER : gmap string Z;
  published : list (string * Envelope);
  TELEMETRY : list TelemetryEntry
}.

Definition set_auth (a : Auth.AuthState) (s : State) : State :=
  {| auth := a; TOPIC_COUNTER := TOPIC_COUNTER s; published := published s;
     TELEMETRY := TELEMETRY s |}.

Definition log (e : TelemetryEntry) : M State unit :=
  modify (λ s, {| auth := auth s; TOPIC_COUNTER := TOPIC_COUNTER s;
                  published := published s; TELEMETRY := TELEMETRY s ++ [e] |}).

Definition initial : State :=
  {| auth := Auth.initial; TOPIC_COUNTER := ∅; published := []; TELEMETRY := [] |}.

(** [redis_client.publish(channel, message)] *)
Definition redis_publish (env : Env) (channel : string) (msg : Envelope) : M State unit :=
  if redis_publish_ok env then
    modify (λ s, {| auth := auth s; TOPIC_COUNTER := TOPIC_COUNTER s;
                    published := published s ++ [(channel, msg)];
                    TELEMETRY := TELEMETRY s |})
  else raise BackendError.

Section Servicer.
Context `{Ext : Collaborators}.

(** The [try] block of [Publish]. *)
Definition authorize_publish (request : PublishRequest) (env : Env)
  : M State (gmap string value) :=
  payload ← zoom auth set_auth
              (Auth.verify_jwt_token (publisher_token request) SERVER_NAME env);
  let required_cap := "event:publish:" +:+ topic request in
  ok ← lift (Auth.has_capability payload required_cap);
  (if negb ok then
     let prefix := default "" (head (str_split ":" None (topic request))) in
     let wildcard := "event:publish:" +:+ prefix +:+ "*" in
     ok' ← lift (Auth.has_capability payload wildcard);
     abort_unless ok' PERMISSION_DENIED
   else mret tt);;
  ok ← lift (Auth.has_audience payload SERVER_NAME);
  abort_unless ok PERMISSION_DENIED;;
  mret payload.

(** The [try] block of [Subscribe] and its [except]: what runs before the
    handler subscribes to the broker. *)
Definition authorize_subscribe (topic_filter subscriber_token : string) (env : Env)
  : M State (gmap string value) :=
  payload ← zoom auth set_auth (Auth.verify_jwt_token subscriber_token SERVER_NAME env);
  let required_cap := "event:subscribe:" +:+ topic_filter in
  ok ← lift (Auth.has_capability payload required_cap);
  (if negb ok then
     let prefix := default "" (head (str_split ":" None topic_filter)) in
     let wildcard := "event:subscribe:" +:+ prefix +:+ "*" in
     ok' ← lift (Auth.has_capability payload wildcard);
     abort_unless ok' PERMISSION_DENIED
   else mret tt);;
  ok ← lift (Auth.has_audience payload SERVER_NAME);
  abort_unless ok PERMISSION_DENIED;;
  mret payload.

Definition Subscribe_admission (topic_filter subscriber_token : string) (env : Env)
  : M State (gmap string value) :=
  let peer := peer env in
  try_except (authorize_subscribe topic_filter subscriber_token env)
    (λ e,
       log {| method := "Subscribe"; client := VStr peer; status := "unauthenticated";
              cache_hit := None |};;
       abort UNAUTHENTICATED).

Definition Publish (request : PublishRequest) (env : Env)
  : M State EventPublishResponse :=
  let peer := peer env in
  payload ← try_except (authorize_publish request env)
    (λ e,
       log {| method := "Publish"; client := VStr peer; status := "unauthenticated";
              cache_hit := None |};;
       abort UNAUTHENTICATED);
  st ← get_state;
  let seq := (default 0 (TOPIC_COUNTER st !! topic request) + 1)%Z in
  modify (λ s, {| auth := auth s;
                  TOPIC_COUNTER := <[topic request := seq]> (TOPIC_COUNTER s);
                  published := published s; TELEMETRY := TELEMETRY s |});;
  let channel := "mcp2:event:" +:+ topic request in
  let message := {| env_topic := topic request;
                    env_payload := decode_utf8_ignore (event_payload request);
                    sequence_id := seq;
                    timestamp := time_time env |} in
  redis_publish env channel message;;
  sub ← lift (py_index payload "sub");
  log {| method := "Publish"; client := sub; status := "success"; cache_hit := None |};;
  mret {| success := true; message := "Published" |}.

End Servicer.

End EventBus.

(** ** context_tool_server.py *)

Module ContextTool.

Import Middleware.

Definition SERVER_NAME : string := "ContextToolServer".

Record ContextRequest : Type := {
  req_context_key : string;
  parameters : gmap string string;
  capability_token : string
}.

(** Modelled from the spec: the generated module [mcp2_pb2] is not among the
    sources; §6 gives the response of RequestContext as
    [(serialized_value bytes, metadata[])]. *)
Record ContextResponse : Type := {
  resp_serialized_value : string;
  metadata : value
}.

Record ToolRequest : Type := {
  tool_name : string;
  arguments : gmap string string;
  tool_capability_token : string;
  agent_delegation_proof : string
}.

Record ToolResponse : Type := {
  success : bool;
  outputs : gmap string string;
  warnings : list string
}.

(** The module globals [CACHE], [CIRCUIT], [TELEMETRY], those of [auth], and
    the keys the SQL session has been asked for. *)
Record State : Type := {
  auth : Auth.AuthState;
  CACHE : SimpleCache ContextResponse;
  CIRCUIT : CircuitBreaker;
  TELEMETRY : list TelemetryEntry;
  db_queries : list string
}.

Definition initial : State :=
  {| auth := Auth.initial;
     CACHE := SimpleCache_init;
     CIRCUIT := CircuitBreaker_init 3 30;
     TELEMETRY := [];
     db_queries := [] |}.

Definition set_auth (a : Auth.AuthState) (s : State) : State :=
  {| auth := a; CACHE := CACHE s; CIRCUIT := CIRCUIT s; TELEMETRY := TELEMETRY s;
     db_queries := db_queries s |}.

Definition log (e : TelemetryEntry) : M State unit :=
  modify (λ s, {| auth := auth s; CACHE := CACHE s; CIRCUIT := CIRCUIT s;
                  TELEMETRY := TELEMETRY s ++ [e]; db_queries := db_queries s |}).

(** [CIRCUIT.before_call()] *)
Definition CIRCUIT_before_call (env : Env) : M State bool :=
  st ← get_state; lift (before_call (time_time env) (CIRCUIT st)).

(** [CIRCUIT.after_call(success)] *)
Definition CIRCUIT_after_call (env : Env) (success : bool) : M State unit :=
  modify (λ s, {| auth := auth s; CACHE := CACHE s;
                  CIRCUIT := after_call (time_time env) success (CIRCUIT s);
                  TELEMETRY := TELEMETRY s; db_queries := db_queries s |}).

(** [CACHE.set(key, value, ttl=ttl)] *)
Definition CACHE_set (key : string) (v : ContextResponse) (ttl : option Z) : M State unit :=
  modify (λ s, {| auth := auth s; CACHE := set (CACHE s) key v ttl;
                  CIRCUIT := CIRCUIT s; TELEMETRY := TELEMETRY s;
                  db_queries := db_queries s |}).

(** [session.get(ContextEntry, key)] *)
Definition db_get (env : Env) (key : string) : M State (option ContextEntry) :=
  modify (λ s, {| auth := auth s; CACHE := CACHE s; CIRCUIT := CIRCUIT s;
                  TELEMETRY := TELEMETRY s; db_queries := db_queries s ++ [key] |});;
  lift (session_get env key).

Section Servicer.
Context `{Ext : Collaborators}.

(** [pb2.ContextResponse(serialized_value=, metadata=)]: an empty list is
    always taken for a repeated field; for any other object the protobuf
    runtime decides. *)
Definition new_ContextResponse (serialized : string) (metadata_list : value)
  : result ContextResponse :=
  if value_eqb metadata_list (VList []) || metadata_accepted metadata_list
  then Ok {| resp_serialized_value := serialized; metadata := metadata_list |}
  else Raise TypeError.

(** [try: metadata_list = json.loads(entry.metadata_json)
     except: metadata_list = []];
    [json.loads(None)] raises. *)
Definition load_metadata (entry : ContextEntry) : value :=
  match metadata_json entry with
  | None => VList []
  | Some text =>
      match json_loads text with
      | Ok v => v
      | Raise _ => VList []
      end
  end.

(** The [try] block of [RequestContext]. *)
Definition authorize_context (request : ContextRequest) (env : Env)
  : M State (gmap string value) :=
  payload ← zoom auth set_auth
              (Auth.verify_jwt_token (capability_token request) SERVER_NAME env);
  ok ← lift (Auth.has_capability payload "db:inventory:read");
  abort_unless ok PERMISSION_DENIED;;
  ok ← lift (Auth.has_audience payload SERVER_NAME);
  abort_unless ok PERMISSION_DENIED;;
  mret payload.

Definition RequestContext (request : ContextRequest) (env : Env)
  : M State ContextResponse :=
  let peer := peer env in
  (* 1. Validate token *)
  payload ← try_except (authorize_context request env)
    (λ e,
       log {| method := "RequestContext"; client := VStr peer;
              status := "unauthenticated"; cache_hit := None |};;
       abort UNAUTHENTICATED);
  (* 2. Circuit breaker *)
  admitted ← CIRCUIT_before_call env;
  (if negb admitted then
     sub ← lift (py_index payload "sub");
     log {| method := "RequestContext"; client := sub; status := "circuit_open";
            cache_hit := None |};;
     abort UNAVAILABLE
   else mret tt);;
  (* 3. Check cache *)
  let cache_key :=
    "context::" +:+ req_context_key request +:+ "::" +:+ params_repr (parameters request) in
  st ← get_state;
  match get (CACHE st) cache_key with
  | Some cached_resp =>
      sub ← lift (py_index payload "sub");
      log {| method := "RequestContext"; client := sub; status := "success";
             cache_hit := Some true |};;
      mret cached_resp
  | None =>
      (* 4. Fetch from PostgreSQL *)
      try_except
        (entry ← db_get env (req_context_key request);
         let '(serialized, metadata_list) :=
           match entry with
           | None => ("", VList [])
           | Some entry => (serialized_value entry, load_metadata entry)
           end in
         resp ← lift (new_ContextResponse serialized metadata_list);
         (* 5. Cache it *)
         CACHE_set cache_key resp (Some 60%Z);;
         CIRCUIT_after_call env true;;
         sub ← lift (py_index payload "sub");
         log {| method := "RequestContext"; client := sub; status := "success";
                cache_hit := Some false |};;
         mret resp)
        (λ e,
           CIRCUIT_after_call env false;;
           sub ← lift (py_index payload "sub");
           log {| method := "RequestContext"; client := sub; status := "db_error";
                  cache_hit := None |};;
           abort INTERNAL)
  end.

(** Step 1 of [SubscribeTelemetry]: what runs before the handler subscribes
    to the broker. *)
Definition SubscribeTelemetry_admission (capability_token : string) (env : Env)
  : M State (gmap string value) :=
  let peer := peer env in
  try_except
    (payload ← zoom auth set_auth
                 (Auth.verify_jwt_token capability_token SERVER_NAME env);
     ok ← lift (Auth.has_capability payload "telemetry:read");
     abort_unless ok PERMISSION_DENIED;;
     ok ← lift (Auth.has_audience payload SERVER_NAME);
     abort_unless ok PERMISSION_DENIED;;
     mret payload)
    (λ e,
       log {| method := "SubscribeTelemetry"; client := VStr peer;
              status := "unauthenticated"; cache_hit := None |};;
       abort UNAUTHENTICATED).

(** What [MultiModalExchange] does on the first frame, before it is echoed;
    [md] is [dict(context.invocation_metadata())]. The [except] clause reads
    the local [token_payload], which is [None] until the token has verified:
    the one [try] is written as two, before and after that assignment. *)
Definition MultiModalExchange_first_frame (md : gmap string string) (env : Env)
  : M State (gmap string value) :=
  let peer := peer env in
  let failure (client : value) : M State (gmap string value) :=
    log {| method := "MultiModalExchange"; client := client; status := "failure";
           cache_hit := None |};;
    abort UNAUTHENTICATED in
  token_payload ← try_except
    (let token := default "" (md !! "capability_token") in
     abort_unless (negb (bool_decide (token = ""))) PERMISSION_DENIED;;
     zoom auth set_auth (Auth.verify_jwt_token token SERVER_NAME env))
    (λ e, failure (VStr peer));
  try_except
    (ok ← lift (Auth.has_capability token_payload "tool:multimodal_exchange");
     abort_unless ok PERMISSION_DENIED;;
     ok ← lift (Auth.has_audience token_payload SERVER_NAME);
     abort_unless ok PERMISSION_DENIED;;
     mret token_payload)
    (λ e, failure (if bool_decide (token_payload = ∅) then VStr peer
                   else py_get_default token_payload "sub" (VStr peer))).

(** [MultiModalExchange] on the frames of the request stream: the frames it
    yields back, and how the call ends. With no frame the loop body never
    runs, [token_payload] is still [None] when the completion record is
    built, and [token_payload["sub"]] raises [TypeError] inside the [try]. *)
Definition MultiModalExchange (frames : list string) (md : gmap string string) (env : Env)
  : State → (list string * result unit) * State :=
  λ st,
    let peer := peer env in
    let failure (client : value) : M State unit :=
      log {| method := "MultiModalExchange"; client := client; status := "failure";
             cache_hit := None |};;
      abort UNAUTHENTICATED in
    match frames with
    | [] => let '(r, st1) := failure (VStr peer) st in (([], r), st1)
    | _ :: _ =>
        match MultiModalExchange_first_frame md env st with
        | (Raise e, st1) => (([], Raise e), st1)
        | (Ok token_payload, st1) =>
            let '(r, st2) :=
              try_except
                (sub ← lift (py_index token_payload "sub");
                 log {| method := "MultiModalExchange"; client := sub;
                        status := "completed"; cache_hit := None |})
                (λ e, failure (if bool_decide (token_payload = ∅) then VStr peer
                               else py_get_default token_payload "sub" (VStr peer)))
                st1 in
            ((frames, r), st2)
        end
    end.

(** The branch of [InvokeTool] for [compute_pricing]:
    [max(0.0, 100.0 - 0.1 * stock)] printed by [str]. *)
Definition compute_pricing (arguments : gmap string string) : result string :=
  let sku := default "" (arguments !! "sku") in
  stock ← py_int (default "0" (arguments !! "stock_count"));
  stock_f ← py_float stock;
  (* 0x1.999999999999ap-4 is the double written 0.1 *)
  let x := (100.0 - 0x1.999999999999ap-4 * stock_f)%float in
  let recommended_price := if (0.0 <? x)%float then x else 0.0%float in
  mret (str_float recommended_price).

(** The [try] block of [InvokeTool]. *)
Definition authorize_tool (request : ToolRequest) (env : Env)
  : M State (gmap string value) :=
  payload ← zoom auth set_auth
              (Auth.verify_jwt_token (tool_capability_token request) SERVER_NAME env);
  let required_cap := "tool:" +:+ tool_name request in
  ok ← lift (Auth.has_capability payload required_cap);
  payload ←
    (if negb ok then
       let del_proof := agent_delegation_proof request in
       abort_unless (negb (bool_decide (del_proof = ""))) PERMISSION_DENIED;;
       delegated_payload ← zoom auth set_auth
         (Auth.verify_delegation_proof del_proof SERVER_NAME payload env);
       present ← lift (py_in required_cap
                          (py_get_default delegated_payload "capabilities" (VList [])));
       abort_unless present PERMISSION_DENIED;;
       mret delegated_payload
     else mret payload);
  ok ← lift (Auth.has_audience payload SERVER_NAME);
  abort_unless ok PERMISSION_DENIED;;
  mret payload.

Definition InvokeTool (request : ToolRequest) (env : Env) : M State ToolResponse :=
  let peer := peer env in
  payload ← try_except (authorize_tool request env)
    (λ e,
       log {| method := "InvokeTool"; client := VStr peer; status := "unauthenticated";
              cache_hit := None |};;
       abort UNAUTHENTICATED);
  admitted ← CIRCUIT_before_call env;
  (if negb admitted then
     sub ← lift (py_index payload "sub");
     log {| method := "InvokeTool"; client := sub; status := "circuit_open";
            cache_hit := None |};;
     abort UNAVAILABLE
   else mret tt);;
  '(outputs, warnings) ←
    (if bool_decide (tool_name request = "compute_pricing") then
       price ← lift (compute_pricing (arguments request));
       mret (<["recommended_price" := price]> (∅ : gmap string string), [])
     else
       mret (∅, ["Tool '" +:+ tool_name request +:+ "' not recognized"]));
  CIRCUIT_after_call env true;;
  sub ← lift (py_index payload "sub");
  log {| method := "InvokeTool"; client := sub; status := "success"; cache_hit := None |};;
  mret {| success := true; outputs := outputs; warnings := warnings |}.

End Servicer.

End ContextTool.

(** ** A test double for the collaborators

    Tokens are looked up in a table that gives, for each compact token, its
    header and its claims; the other collaborators are small stand-ins. *)

Module Fixture.

(** §4.2 step 5: the expected audience appears in [aud], exact match, no
    wildcard at this layer. *)
Definition aud_lists (claims : gmap string value) (audience : string) : bool :=
  match claims !! "aud" with
  | Some (VStr a) => bool_decide (a = audience)
  | Some (VList l) => existsb (λ a, value_eqb a (VStr audience)) l
  | _ => false
  end.

Definition not_expired (claims : gmap string value) (now : Z) : bool :=
  match claims !! "exp" with
  | Some (VInt e) => bool_decide (now < e)%Z
  | _ => true
  end.

(** Modelled from the spec: [jose_jwt.decode] belongs to python-jose, which
    is not among the sources. §4.2 steps 3 to 5 and the invariant of §3 (a
    token is never trusted unless the signature verifies, [exp > now], [iss]
    is the configured issuer and [aud] contains the callee's name), which is
    also what the docstring of [verify_jwt_token] announces. The signature
    check is rendered as: the key offered carries the [kid] of the header. *)
Definition table_decode (table : list (string * (gmap string value * gmap string value)))
    (token : string) (key : gmap string value) (audience issuer : string) (now : Z)
  : result (gmap string value) :=
  match (list_to_map table : gmap string _) !! token with
  | None => Raise (JWTError "Error decoding token headers.")
  | Some (header, claims) =>
      if negb (value_eqb (py_get header "kid") (py_get key "kid"))
      then Raise (JWTError "Signature verification failed.")
      else if negb (value_eqb (py_get claims "iss") (VStr issuer))
      then Raise (JWTError "Invalid issuer")
      else if negb (aud_lists claims audience)
      then Raise (JWTError "Invalid audience")
      else if negb (not_expired claims now)
      then Raise (JWTError "Signature has expired.")
      else Ok claims
  end.

Definition table_header (table : list (string * (gmap string value * gmap string value)))
    (token : string) : result (gmap string value) :=
  match (list_to_map table : gmap string _) !! token with
  | None => Raise (JWTError "Error decoding token headers.")
  | Some (header, _) => Ok header
  end.

Definition collaborators
    (table : list (string * (gmap string value * gmap string value))) : Collaborators :=
  {| get_unverified_header := table_header table;
     jose_decode := table_decode table;
     json_loads := λ text,
       if bool_decide (text = "[]") then Ok (VList [])
       else Raise (ValueError "Expecting value");
     metadata_accepted := λ v,
       match v with
       | VList l => forallb (λ x, match x with VStr _ => true | _ => false end) l
       | _ => false
       end;
     params_repr := λ ps,
       "(" +:+ foldr (λ kv acc, "('" +:+ kv.1 +:+ "', '" +:+ kv.2 +:+ "'), " +:+ acc)
                     ")" (map_to_list ps);
     decode_utf8_ignore := λ b, b;
     float_repr := λ _, "nan" |}.

Definition key (kid : string) : gmap string value :=
  {[ "kid" := VStr kid; "kty" := VStr "RSA" ]}.

Definition jwks (kids : list string) : gmap string (list (gmap string value)) :=
  {[ "keys" := key <$> kids ]}.

Definition header (kid : string) : gmap string value :=
  {[ "alg" := VStr "RS256"; "kid" := VStr kid ]}.

Definition claims (sub : string) (aud caps : list string) : gmap string value :=
  {[ "iss" := VStr Auth.OIDC_ISSUER; "sub" := VStr sub;
     "aud" := VList (VStr <$> aud); "capabilities" := VList (VStr <$> caps) ]}.

Definition env_at (now : Z) (kids : list string)
    (db : string → result (option ContextEntry)) : Env :=
  {| time_time := now; peer := "ipv4:127.0.0.1:40000";
     jwks_endpoint := Ok (jwks kids);
     session_get := db;
     redis_publish_ok := true |}.

Definition no_db : string → result (option ContextEntry) := λ _, Ok None.

(** *** Scenarios *)

Definition tokens : list (string * (gmap string value * gmap string value)) :=
  [ ("reader", (header "k1", claims "alice" ["ContextToolServer"] ["db:inventory:*"]));
    ("parent", (header "k1", claims "alice" ["ContextToolServer"] ["tool:*"]));
    ("delegation",
       (header "k1",
        <["delegatee" := VStr "ContextToolServer"]>
          (claims "alice" ["ContextToolServer"] ["tool:compute_pricing"])));
    ("rotated", (header "k2", claims "alice" ["ContextToolServer"] ["db:inventory:*"]));
    ("publisher", (header "k1", claims "bob" ["EventBusServer"] ["event:publish:*"]));
    ("seeker", (header "k1", claims "carol" ["A"; "RegistryServer"] ["registry:lookup"]));
    ("narrow", (header "k1", claims "carol" ["A"] ["registry:lookup"]));
    ("bare", (header "k1", claims "dave" ["ContextToolServer"] [])) ].

Definition context_request (token : string) : ContextTool.ContextRequest :=
  {| ContextTool.req_context_key := "inventory:prod_12345:stock_count";
     ContextTool.parameters := ∅;
     ContextTool.capability_token := token |}.

Definition stock_request : ContextTool.ContextRequest := context_request "reader".

Definition row (v : string) (md : option string) : string → result (option ContextEntry) :=
  λ k, Ok (Some {| context_key := k; serialized_value := v; metadata_json := md |}).

(** The breaker of the context server after three failures, the last at
    time 100. *)
Definition tripped : Middleware.CircuitBreaker :=
  foldl (λ cb t, Middleware.after_call t false cb)
        (Middleware.CircuitBreaker_init 3 30) [98; 99; 100]%Z.

Definition tripped_state : ContextTool.State :=
  {| ContextTool.auth := Auth.initial;
     ContextTool.CACHE := Middleware.SimpleCache_init;
     ContextTool.CIRCUIT := tripped;
     ContextTool.TELEMETRY := [];
     ContextTool.db_queries := [] |}.

Definition demo : Collaborators := collaborators tokens.

Definition publish (t : string) (now : Z) : EventBus.PublishRequest * Env :=
  ({| EventBus.topic := t; EventBus.event_payload := "{}";
      EventBus.publisher_token := "publisher" |},
   env_at now ["k1"] no_db).

(** Three publishes to [inventory] interleaved with two to [orders]. *)
Definition interleaved : list (EventBus.PublishRequest * Env) :=
  [publish "inventory" 1; publish "orders" 2; publish "inventory" 3;
   publish "inventory" 4; publish "orders" 5]%Z.

(** A registry in which [A] and [B] have registered the same capability. *)
Definition registry_A_B : Registry.State :=
  (Registry.register_in_redis "B" "127.0.0.1:50062" ["db:inventory:read"]
     (env_at 2 ["k1"] no_db)
     (Registry.register_in_redis "A" "127.0.0.1:50061" ["db:inventory:*"]
        (env_at 1 ["k1"] no_db)
        {| Registry.auth := Auth.initial; Registry.REDIS := ∅;
           Registry.TELEMETRY := [] |}).2).2.

Definition lookup_request (token : string) : Registry.LookupRequest :=
  {| Registry.requester_token := token;
     Registry.capability_filter := ["db:inventory:read"] |}.

Definition pricing_request (delegation_proof : string) : ContextTool.ToolRequest :=
  {| ContextTool.tool_name := "compute_pricing";
     ContextTool.arguments := {[ "sku" := "x"; "stock_count" := "10" ]};
     ContextTool.tool_capability_token := "parent";
     ContextTool.agent_delegation_proof := delegation_proof |}.

Definition fetched (now : Z) (kids : list string) : Auth.AuthState :=
  {| Auth._JWKS_CACHE := Some (jwks kids); Auth._JWKS_LAST_FETCH := now;
     Auth.jwks_requests := 1 |}.

Definition stock_key : string := "inventory:prod_12345:stock_count".

(** The context server after one RequestContext at time 0 that read the
    value 42 from the store. *)
Definition after_first_read : ContextTool.State :=
  (ContextTool.RequestContext (Ext := demo) stock_request
     (env_at 0 ["k1"] (row "42" None)) ContextTool.initial).2.

End Fixture.

(** ** Notions the properties are stated with *)

(** §4.3: [g] equals [R], or [g] is some [p] followed by a star and [R]
    starts with [p]. *)
Definition covers (g R : string) : Prop :=
  g = R ∨ ∃ p, g = p +:+ "*" ∧ ∃ r, R = p +:+ r.

(** A breaker after the calls of a history have been recorded with
    [after_call], each with its time and whether it succeeded. *)
Definition record_calls (history : list (Z * bool)) (self : Middleware.CircuitBreaker)
  : Middleware.CircuitBreaker :=
  foldl (λ cb (e : Z * bool), Middleware.after_call e.1 e.2 cb) self history.

(** The number of failures at the end of a history, since its last
    success. *)
Definition trailing_failures (history : list (Z * bool)) : nat :=
  foldl (λ n (e : Z * bool), if e.2 then 0 else S n) 0 history.

(** The time of the last failure of a history. *)
Definition last_failure (history : list (Z * bool)) : option Z :=
  foldl (λ o (e : Z * bool), if e.2 then o else Some e.1) None history.

(** A process serving Publish calls one after the other: the outcome of
    each call, and the state at the end. *)
Fixpoint serve_Publish `{Ext : Collaborators}
    (calls : list (EventBus.PublishRequest * Env)) (st : EventBus.State)
  : list (result EventBus.EventPublishResponse) * EventBus.State :=
  match calls with
  | [] => ([], st)
  | (request, env) :: rest =>
      let '(r, st1) := EventBus.Publish request env st in
      let '(rs, st2) := serve_Publish rest st1 in
      (r :: rs, st2)
  end.

(** Every call of a run passes the authorization block of Publish in the
    state it meets. *)
Fixpoint all_authorized `{Ext : Collaborators}
    (calls : list (EventBus.PublishRequest * Env)) (st : EventBus.State) : Prop :=
  match calls with
  | [] => True
  | (request, env) :: rest =>
      is_ok (EventBus.authorize_publish request env st).1 = true
      ∧ all_authorized rest (EventBus.Publish request env st).2
  end.

(** For each call of a run, its topic and the value of the topic's counter
    when the call is over. *)
Fixpoint counters_after `{Ext : Collaborators}
    (calls : list (EventBus.PublishRequest * Env)) (st : EventBus.State)
  : list (string * Z) :=
  match calls with
  | [] => []
  | (request, env) :: rest =>
      let st1 := (EventBus.Publish request env st).2 in
      (EventBus.topic request,
       default 0%Z (EventBus.TOPIC_COUNTER st1 !! EventBus.topic request))
      :: counters_after rest st1
  end.

(** The sequence numbers of the envelopes the broker received for a topic,
    in the order received. *)
Definition sequence_ids (t : string) (log : list (string * EventBus.Envelope)) : list Z :=
  EventBus.sequence_id <$> filter (λ e, EventBus.env_topic e = t) (snd <$> log).

(** A record answers a list of filters when one of its capabilities
    matches one of them. *)
Definition answers (cap_filters caps : list string) : bool :=
  existsb (λ f, existsb (λ c, Registry.cap_matches c f) caps) cap_filters.

(** The endpoint Lookup reports for the record registered under a name. *)
Definition endpoint_of (name : string) (v : Registry.RegistryValue)
  : Registry.EndpointDescriptor :=
  {| Registry.server_name := name;
     Registry.ep_grpc_url := Registry.grpc_url v;
     Registry.ep_capabilities := Registry.capabilities v |}.

(** What one key of the scan contributes to the matches. *)
Definition reported (cap_filters : list string) (kv : string * Registry.RegistryValue)
  : option Registry.EndpointDescriptor :=
  if answers cap_filters (Registry.capabilities kv.2)
  then Some (endpoint_of (List.last (str_split ":" (Some 2) kv.1) "") kv.2)
  else None.

(** Unfolds the monad operations applied to a state, leaving the calls into
    [auth] and the collaborators folded. *)
Ltac run :=
  cbv beta iota delta
    [mbind mret M_bind M_ret bind ret raise lift get_state modify try_except
     abort abort_unless zoom
     ContextTool.log ContextTool.CIRCUIT_before_call ContextTool.CIRCUIT_after_call
     ContextTool.CACHE_set ContextTool.db_get
     Registry.log EventBus.log EventBus.redis_publish
     ContextTool.set_auth Registry.set_auth EventBus.set_auth];
  cbn [negb fst snd
       ContextTool.auth ContextTool.CACHE ContextTool.CIRCUIT ContextTool.TELEMETRY
       ContextTool.db_queries
       Registry.auth Registry.REDIS Registry.TELEMETRY
       EventBus.auth EventBus.TOPIC_COUNTER EventBus.published EventBus.TELEMETRY].

(** * Properties *)

(** ** Strings and values *)

Lemma startswith_spec (s p : string) :
  startswith s p = true ↔ ∃ r, s = p +:+ r.
Proof.
  revert s. induction p as [|b p IH]; intros s; simpl.
  - split; [intros _; by exists s | done].
  - destruct s as [|a s]; simpl.
    + split; [done | intros [r Hr]; discriminate].
    + destruct (decide (a = b)) as [->|Hne].
      * rewrite IH. split; intros [r Hr]; exists r.
        -- by rewrite Hr.
        -- by injection Hr.
      * split; [done | intros [r Hr]; injection Hr; congruence].
Qed.

Lemma endswith_spec (s suffix : string) :
  endswith s suffix = true ↔ ∃ p, s = p +:+ suffix.
Proof.
  induction s as [|a s IH]; simpl.
  - rewrite orb_false_r, bool_decide_eq_true. split.
    + intros <-. by exists "".
    + intros [p Hp]. destruct p; simpl in Hp; [done | discriminate].
  - rewrite orb_true_iff, bool_decide_eq_true, IH. split.
    + intros [<- | [p ->]]; [by exists "" | by exists (String a p)].
    + intros [p Hp]. destruct p as [|b p]; simpl in Hp.
      * by left.
      * right. injection Hp as -> ->. by exists p.
Qed.

Lemma drop_last_snoc (p : string) (a : ascii) :
  drop_last (p +:+ String a "") = p.
Proof.
  induction p as [|b p IH]; [done |].
  simpl. rewrite IH. by destruct p.
Qed.

Lemma wildcard_test_spec (g R : string) :
  (endswith g "*" && startswith R (drop_last g)) = true ↔
  ∃ p, g = p +:+ "*" ∧ ∃ r, R = p +:+ r.
Proof.
  rewrite andb_true_iff, endswith_spec. split.
  - intros [[p ->] HR]. exists p. split; [done |].
    rewrite drop_last_snoc in HR. by apply startswith_spec.
  - intros (p & -> & HR). split; [by exists p |].
    rewrite drop_last_snoc. by apply startswith_spec.
Qed.

Lemma has_capability_loop_strings (G : list string) (R : string) :
  ∃ b, Auth.has_capability_loop (VStr <$> G) R = Ok b ∧
       (b = true ↔ ∃ g, g ∈ G ∧ covers g R).
Proof.
  induction G as [|g G (b & Hb & IH)]; simpl.
  - exists false. split; [done |]. split; [done |].
    intros (g & Hg & _). by apply elem_of_nil in Hg.
  - case_bool_decide as Heq.
    + exists true. split; [done |]. split; [| done]. intros _.
      exists g. split; [left | by left].
    + assert (Hstep : ∀ b', (b' = true ↔ ∃ g', g' ∈ G ∧ covers g' R) →
                (endswith g "*" && startswith R (drop_last g)) = false →
                (b' = true ↔ ∃ g', g' ∈ g :: G ∧ covers g' R)).
      { intros b' Hb' Hw. rewrite Hb'. split.
        - intros (g' & Hg' & Hc). exists g'. split; [by right | done].
        - intros (g' & Hg' & Hc). apply elem_of_cons in Hg' as [-> | Hg'].
          + destruct Hc as [-> | Hc]; [done |].
            apply wildcard_test_spec in Hc. congruence.
          + by exists g'. }
      destruct (endswith g "*") eqn:He; [destruct (startswith R (drop_last g)) eqn:Hs |].
      * exists true. split; [done |]. split; [| done]. intros _.
        exists g. split; [left |]. right. apply wildcard_test_spec.
        apply andb_true_iff. split; [exact He | exact Hs].
      * exists b. split; [done |]. by apply Hstep.
      * exists b. split; [done |]. by apply Hstep.
Qed.

(** ** The capability matcher (auth.py, [has_capability]) *)

(** C5. For a granted list G of capability strings and a required string R,
    [has_capability] returns true exactly when some g in G equals R or ends
    with a star and R starts with g minus that star; nothing else matches,
    and a bare star in G matches every R. *)
Theorem has_capability_iff (payload : gmap string value) (G : list string) (R : string) :
  payload !! "capabilities" = Some (VList (VStr <$> G)) →
  (∃ b, Auth.has_capability payload R = Ok b ∧
        (b = true ↔ ∃ g, g ∈ G ∧ covers g R))
  ∧ ("*" ∈ G → Auth.has_capability payload R = Ok true).
Proof.
  intros Hcaps.
  assert (Hloop : Auth.has_capability payload R
                  = Auth.has_capability_loop (VStr <$> G) R).
  { unfold Auth.has_capability, py_get_default. by rewrite Hcaps. }
  rewrite Hloop.
  destruct (has_capability_loop_strings G R) as (b & Hb & Hiff).
  split; [by exists b |].
  intros Hstar. rewrite Hb. f_equal. apply Hiff.
  exists "*". split; [done |]. right. exists "". split; [done | by exists R].
Qed.

Lemma has_capability_iff_witness :
  Fixture.claims "alice" ["ContextToolServer"] ["db:inventory:*"; "*"] !! "capabilities"
    = Some (VList (VStr <$> ["db:inventory:*"; "*"]))
  ∧ (∃ b, Auth.has_capability
            (Fixture.claims "alice" ["ContextToolServer"] ["db:inventory:*"; "*"])
            "db:inventory:read" = Ok b ∧
          (b = true ↔ ∃ g, g ∈ ["db:inventory:*"; "*"] ∧ covers g "db:inventory:read"))
  ∧ ("*" ∈ ["db:inventory:*"; "*"] →
     Auth.has_capability
       (Fixture.claims "alice" ["ContextToolServer"] ["db:inventory:*"; "*"])
       "db:inventory:read" = Ok true).
Proof.
  assert (H : Fixture.claims "alice" ["ContextToolServer"] ["db:inventory:*"; "*"]
                !! "capabilities"
              = Some (VList (VStr <$> ["db:inventory:*"; "*"]))) by (vm_compute; reflexivity).
  split; [exact H |].
  exact (has_capability_iff _ ["db:inventory:*"; "*"] "db:inventory:read" H).
Defined.

(** Forms that are not wildcards: a star in the middle, a question mark. *)
Example has_capability_no_other_wildcards :
  Auth.has_capability (Fixture.claims "alice" [] ["db:*:read"; "db:inventory:rea?"])
    "db:inventory:read" = Ok false.
Proof. vm_compute. reflexivity. Qed.

Lemma has_capability_no_caps (payload : gmap string value) (required : string) :
  payload !! "capabilities" = None ∨ payload !! "capabilities" = Some (VList []) →
  Auth.has_capability payload required = Ok false.
Proof.
  unfold Auth.has_capability, py_get_default.
  by intros [-> | ->].
Qed.

(** ** The circuit breaker (middleware.py, [CircuitBreaker]) *)

(** C8. Whatever the breaker was, recording a success leaves it closed with
    a failure count of zero. *)
Theorem after_call_success_closes (now : Z) (self : Middleware.CircuitBreaker) :
  Middleware.open (Middleware.after_call now true self) = false
  ∧ Middleware.failure_count (Middleware.after_call now true self) = 0%Z.
Proof. by split. Qed.

Section BreakerAndCache.
Context `{Ext : Collaborators}.
Import ContextTool Middleware.

Lemma authorize_context_ok request env st payload a' :
  Auth.verify_jwt_token (capability_token request) SERVER_NAME env (auth st)
    = (Ok payload, a') →
  Auth.has_capability payload "db:inventory:read" = Ok true →
  Auth.has_audience payload SERVER_NAME = Ok true →
  authorize_context request env st = (Ok payload, set_auth a' st).
Proof.
  intros Hv Hc Ha. unfold authorize_context. run.
  rewrite Hv. run. rewrite Hc. run. by rewrite Ha.
Qed.

(** A call that is authorized while the breaker refuses: nothing but the
    telemetry record and the key-set cache changes. *)
Lemma RequestContext_circuit_open request env st payload a' sub :
  Auth.verify_jwt_token (capability_token request) SERVER_NAME env (auth st)
    = (Ok payload, a') →
  Auth.has_capability payload "db:inventory:read" = Ok true →
  Auth.has_audience payload SERVER_NAME = Ok true →
  payload !! "sub" = Some sub →
  before_call (time_time env) (CIRCUIT st) = Ok false →
  RequestContext request env st =
    (Raise (RpcAbort UNAVAILABLE),
     {| auth := a'; CACHE := CACHE st; CIRCUIT := CIRCUIT st;
        TELEMETRY := TELEMETRY st ++
          [{| method := "RequestContext"; client := sub; status := "circuit_open";
              cache_hit := None |}];
        db_queries := db_queries st |}).
Proof.
  intros Hv Hc Ha Hs Hb. unfold RequestContext. run.
  rewrite (authorize_context_ok _ _ _ _ _ Hv Hc Ha). run.
  rewrite Hb. run. unfold py_index. by rewrite Hs.
Qed.

Lemma failures_count (times : list Z) (self : CircuitBreaker) :
  failure_count (foldl (λ cb t, after_call t false cb) self times)
    = (failure_count self + Z.of_nat (length times))%Z
  ∧ threshold (foldl (λ cb t, after_call t false cb) self times) = threshold self
  ∧ recovery_time (foldl (λ cb t, after_call t false cb) self times)
    = recovery_time self.
Proof.
  revert self. induction times as [|t times IH]; intros self.
  - cbn [foldl length]. repeat split. lia.
  - cbn [foldl length].
    destruct (IH (after_call t false self)) as (Hc & Ht & Hr).
    rewrite Hc, Ht, Hr. unfold after_call; cbn [failure_count threshold recovery_time].
    repeat split. lia.
Qed.

Lemma failures_trip (times : list Z) (t : Z) (self : CircuitBreaker) :
  (threshold self ≤ failure_count self + Z.of_nat (length times) + 1)%Z →
  open (foldl (λ cb t, after_call t false cb) self (times ++ [t])) = true
  ∧ last_failure_time (foldl (λ cb t, after_call t false cb) self (times ++ [t]))
    = Some t.
Proof.
  intros Hn. rewrite foldl_app. cbn [foldl].
  destruct (failures_count times self) as (Hc & Ht & _).
  unfold after_call at 1 3; cbn [open last_failure_time].
  rewrite Hc, Ht. split; [| done].
  rewrite bool_decide_eq_true_2; [done | lia].
Qed.

(** C3, amended. After at least [threshold] consecutive failures, the last at
    time [t], the breaker is open. While it is open a call at a time [now]
    with [now - t ≤ recovery_time] is refused by [before_call], and
    RequestContext answers such a call with Unavailable without querying the
    store or touching the cache. A call with [now - t > recovery_time] is
    admitted. Recording a success then closes the breaker and resets the
    count; recording a failure keeps it open and moves [last_failure_time]
    to the time of that failure. *)
Theorem breaker_cycle (self : CircuitBreaker) (times : list Z) (t : Z) :
  failure_count self = 0%Z →
  (threshold self ≤ Z.of_nat (length (times ++ [t])))%Z →
  let tripped := foldl (λ cb t, after_call t false cb) self (times ++ [t]) in
  open tripped = true
  ∧ (∀ now, (now - t ≤ recovery_time self)%Z →
       before_call now tripped = Ok false
       ∧ ∀ request env st payload a' sub,
           CIRCUIT st = tripped → time_time env = now →
           Auth.verify_jwt_token (capability_token request) SERVER_NAME env (auth st)
             = (Ok payload, a') →
           Auth.has_capability payload "db:inventory:read" = Ok true →
           Auth.has_audience payload SERVER_NAME = Ok true →
           payload !! "sub" = Some sub →
           rpc_status (RequestContext request env st).1 = UNAVAILABLE
           ∧ db_queries (RequestContext request env st).2 = db_queries st
           ∧ CACHE (RequestContext request env st).2 = CACHE st
           ∧ CIRCUIT (RequestContext request env st).2 = tripped)
  ∧ (∀ now, (now - t > recovery_time self)%Z → before_call now tripped = Ok true)
  ∧ (∀ now, open (after_call now true tripped) = false
            ∧ failure_count (after_call now true tripped) = 0%Z)
  ∧ (∀ now, open (after_call now false tripped) = true
            ∧ last_failure_time (after_call now false tripped) = Some now).
Proof.
  intros Hzero Hlen tripped.
  assert (Hopen : open tripped = true ∧ last_failure_time tripped = Some t).
  { apply failures_trip. rewrite length_app in Hlen. simpl in Hlen. lia. }
  destruct Hopen as [Hopen Hlast].
  assert (Hrec : recovery_time tripped = recovery_time self)
    by apply failures_count.
  split; [exact Hopen |]. split; [| split; [| split]].
  - intros now Hnow.
    assert (Hb : before_call now tripped = Ok false).
    { unfold before_call. rewrite Hopen, Hlast, Hrec.
      rewrite bool_decide_eq_false_2; [done | lia]. }
    split; [exact Hb |].
    intros request env st payload a' sub Hst Henv Hv Hc Ha Hs.
    rewrite <- Hst, <- Henv in Hb.
    rewrite (RequestContext_circuit_open _ _ _ _ _ _ Hv Hc Ha Hs Hb).
    by rewrite Hst.
  - intros now Hnow. unfold before_call. rewrite Hopen, Hlast, Hrec.
    rewrite bool_decide_eq_true_2; [done | lia].
  - intros now. by split.
  - intros now. unfold after_call; cbn [open last_failure_time].
    rewrite Hopen. split; [by case_bool_decide | done].
Qed.

(** [get] after [set] finds the value, whatever [ttl] was given. *)
Lemma SimpleCache_get_set {A} (self : SimpleCache A) (key : string) (v : A)
    (ttl : option Z) :
  get (set self key v ttl) key = Some v.
Proof. unfold get, set. simpl. apply lookup_insert_eq. Qed.

(** A cached response is returned at any time of call; the store is not
    asked. *)
Lemma RequestContext_cache_hit request env st payload a' sub cached_resp :
  Auth.verify_jwt_token (capability_token request) SERVER_NAME env (auth st)
    = (Ok payload, a') →
  Auth.has_capability payload "db:inventory:read" = Ok true →
  Auth.has_audience payload SERVER_NAME = Ok true →
  payload !! "sub" = Some sub →
  before_call (time_time env) (CIRCUIT st) = Ok true →
  get (CACHE st)
      ("context::" +:+ req_context_key request +:+ "::" +:+ params_repr (parameters request))
    = Some cached_resp →
  RequestContext request env st =
    (Ok cached_resp,
     {| auth := a'; CACHE := CACHE st; CIRCUIT := CIRCUIT st;
        TELEMETRY := TELEMETRY st ++
          [{| method := "RequestContext"; client := sub; status := "success";
              cache_hit := Some true |}];
        db_queries := db_queries st |}).
Proof.
  intros Hv Hc Ha Hs Hb Hget. unfold RequestContext. run.
  rewrite (authorize_context_ok _ _ _ _ _ Hv Hc Ha). run.
  rewrite Hb. run. rewrite Hget. unfold py_index. by rewrite Hs.
Qed.

(** C10. When the row read for the key has no metadata text, or a text the
    JSON parser rejects, an authorized and admitted RequestContext that
    misses the cache returns the row's bytes with an empty metadata list. *)
Theorem RequestContext_unreadable_metadata request env st payload a' sub entry :
  Auth.verify_jwt_token (capability_token request) SERVER_NAME env (auth st)
    = (Ok payload, a') →
  Auth.has_capability payload "db:inventory:read" = Ok true →
  Auth.has_audience payload SERVER_NAME = Ok true →
  payload !! "sub" = Some sub →
  before_call (time_time env) (CIRCUIT st) = Ok true →
  get (CACHE st)
      ("context::" +:+ req_context_key request +:+ "::" +:+ params_repr (parameters request))
    = None →
  session_get env (req_context_key request) = Ok (Some entry) →
  (metadata_json entry = None
   ∨ ∃ text e, metadata_json entry = Some text ∧ json_loads text = Raise e) →
  (RequestContext request env st).1 =
    Ok {| resp_serialized_value := serialized_value entry; metadata := VList [] |}.
Proof.
  intros Hv Hc Ha Hs Hb Hget Hrow Hmd. unfold RequestContext. run.
  rewrite (authorize_context_ok _ _ _ _ _ Hv Hc Ha). run.
  rewrite Hb. run. rewrite Hget. run. rewrite Hrow.
  assert (Hload : load_metadata entry = VList []).
  { unfold load_metadata. destruct Hmd as [-> | (text & e & -> & ->)]; done. }
  rewrite Hload. unfold new_ContextResponse. cbn [value_eqb orb]. run.
  unfold py_index. by rewrite Hs.
Qed.

End BreakerAndCache.

(** C3 as first stated asks that a call exactly [recovery_time] after the
    last failure be admitted; [before_call] compares with [>] and refuses
    it. *)
Lemma probe_at_recovery_time_refused :
  (130 - 100 >= Middleware.recovery_time Fixture.tripped)%Z
  ∧ Middleware.last_failure_time Fixture.tripped = Some 100%Z
  ∧ Middleware.open Fixture.tripped = true
  ∧ Middleware.before_call 130 Fixture.tripped = Ok false.
Proof. vm_compute. repeat split; discriminate. Qed.

Lemma breaker_cycle_witness :
  Middleware.failure_count (Middleware.CircuitBreaker_init 3 30) = 0%Z
  ∧ (Middleware.threshold (Middleware.CircuitBreaker_init 3 30)
     ≤ Z.of_nat (length ([98; 99] ++ [100])%Z))%Z
  ∧ Middleware.open Fixture.tripped = true
  ∧ Middleware.before_call 120 Fixture.tripped = Ok false
  ∧ Middleware.before_call 131 Fixture.tripped = Ok true.
Proof.
  assert (H0 : Middleware.failure_count (Middleware.CircuitBreaker_init 3 30) = 0%Z)
    by reflexivity.
  assert (H1 : (Middleware.threshold (Middleware.CircuitBreaker_init 3 30)
                ≤ Z.of_nat (length ([98; 99] ++ [100])%Z))%Z)
    by (vm_compute; discriminate).
  destruct (breaker_cycle (Ext := Fixture.demo) _ [98; 99]%Z 100%Z H0 H1)
    as (Hopen & Hwithin & Hafter & _).
  split; [exact H0 |]. split; [exact H1 |]. split; [exact Hopen |]. split.
  - refine (proj1 (Hwithin 120%Z _)). vm_compute; discriminate.
  - refine (Hafter 131%Z _). vm_compute; reflexivity.
Defined.

(** The refusal as a caller of RequestContext sees it, 20 seconds after the
    third failure. *)
Example RequestContext_refused_while_open :
  rpc_status
    (ContextTool.RequestContext (Ext := Fixture.demo) Fixture.stock_request
       (Fixture.env_at 120 ["k1"] (Fixture.row "42" None)) Fixture.tripped_state).1
    = UNAVAILABLE
  ∧ ContextTool.db_queries
      (ContextTool.RequestContext (Ext := Fixture.demo) Fixture.stock_request
         (Fixture.env_at 120 ["k1"] (Fixture.row "42" None)) Fixture.tripped_state).2
    = [].
Proof. vm_compute. by split. Qed.

Lemma RequestContext_unreadable_metadata_witness :
  (ContextTool.RequestContext (Ext := Fixture.demo) Fixture.stock_request
     (Fixture.env_at 10 ["k1"] (Fixture.row "42" (Some "not json")))
     ContextTool.initial).1
  = Ok {| ContextTool.resp_serialized_value := "42"; ContextTool.metadata := VList [] |}.
Proof.
  apply (RequestContext_unreadable_metadata (Ext := Fixture.demo)
           Fixture.stock_request
           (Fixture.env_at 10 ["k1"] (Fixture.row "42" (Some "not json")))
           ContextTool.initial
           (Fixture.claims "alice" ["ContextToolServer"] ["db:inventory:*"])
           (Fixture.fetched 10 ["k1"])
           (VStr "alice")
           {| context_key := Fixture.stock_key; serialized_value := "42";
              metadata_json := Some "not json" |});
    try (vm_compute; reflexivity).
  right. exists "not json", (ValueError "Expecting value").
  split; vm_compute; reflexivity.
Defined.

(** C4 asks that a lookup later than [insert_time + ttl] miss. [SimpleCache]
    keeps neither time nor [ttl]: a response cached at time 0 is served at
    time 1000, past its 60 seconds, although the store now holds another
    value, and the store is not asked again. *)
Theorem cached_response_served_past_ttl :
  (ContextTool.RequestContext (Ext := Fixture.demo) Fixture.stock_request
     (Fixture.env_at 0 ["k1"] (Fixture.row "42" None)) ContextTool.initial).1
  = Ok {| ContextTool.resp_serialized_value := "42"; ContextTool.metadata := VList [] |}
  ∧ (0 + 60 < 1000)%Z
  ∧ (ContextTool.RequestContext (Ext := Fixture.demo) Fixture.stock_request
       (Fixture.env_at 1000 ["k1"] (Fixture.row "7" None)) Fixture.after_first_read).1
    = Ok {| ContextTool.resp_serialized_value := "42"; ContextTool.metadata := VList [] |}
  ∧ ContextTool.db_queries
      (ContextTool.RequestContext (Ext := Fixture.demo) Fixture.stock_request
         (Fixture.env_at 1000 ["k1"] (Fixture.row "7" None)) Fixture.after_first_read).2
    = [Fixture.stock_key].
Proof. vm_compute. repeat split. Qed.

(** ** The key set cache and the token verifier (auth.py) *)

Section KeySet.
Context `{Ext : Collaborators}.
Import Auth.

(** A cached key set younger than the time to live is returned without a
    request to the endpoint. *)
Lemma _fetch_jwks_fresh env st cached :
  _JWKS_CACHE st = Some cached →
  (time_time env - _JWKS_LAST_FETCH st ≤ JWKS_TTL_SECONDS)%Z →
  _fetch_jwks env st = (Ok cached, st).
Proof.
  intros Hc Hfresh. unfold _fetch_jwks. rewrite Hc.
  rewrite bool_decide_eq_false_2; [done | lia].
Qed.

(** With such a key set in place [verify_jwt_token] sends no request at all,
    whatever the token: the retry after an unknown [kid] reads the same
    cached set. *)
Lemma verify_jwt_token_no_request token audience env st cached :
  _JWKS_CACHE st = Some cached →
  (time_time env - _JWKS_LAST_FETCH st ≤ JWKS_TTL_SECONDS)%Z →
  (verify_jwt_token token audience env st).2 = st.
Proof.
  intros Hc Hfresh. unfold verify_jwt_token. run.
  rewrite (_fetch_jwks_fresh _ _ _ Hc Hfresh).
  destruct (get_unverified_header token) as [hdr|]; [| done].
  destruct (truthy (py_get hdr "kid")); [| done]. cbn [negb].
  destruct (find_jwk (default [] (cached !! "keys")) (py_get hdr "kid")) as [k|] eqn:Hfind.
  - by run.
  - run. rewrite (_fetch_jwks_fresh _ _ _ Hc Hfresh), Hfind.
    by destruct (py_get hdr "kid").
Qed.

End KeySet.

(** C2 asks for one forced refresh of the key set when the [kid] of the
    token is not in the current set. The key set was fetched at time 1000
    with key k1; at time 1010 the endpoint serves k1 and k2 and a token
    signed with k2 arrives: verification fails with the unknown-kid error,
    and the count of requests to the endpoint stays at one. The same token
    verifies in a process that has no cached set yet. *)
Theorem unknown_kid_is_not_refreshed :
  Auth.verify_jwt_token (Ext := Fixture.demo) "rotated" "ContextToolServer"
    (Fixture.env_at 1010 ["k1"; "k2"] Fixture.no_db) (Fixture.fetched 1000 ["k1"])
  = (Raise (JWTError "Unable to find matching JWK for kid: k2"),
     Fixture.fetched 1000 ["k1"])
  ∧ Auth.jwks_requests (Fixture.fetched 1000 ["k1"]) = 1
  ∧ (Auth.verify_jwt_token (Ext := Fixture.demo) "rotated" "ContextToolServer"
       (Fixture.env_at 1010 ["k1"; "k2"] Fixture.no_db) Auth.initial).1
    = Ok (Fixture.claims "alice" ["ContextToolServer"] ["db:inventory:*"]).
Proof. vm_compute. repeat split. Qed.

(** ** The delegation verifier (auth.py, [verify_delegation_proof]) *)

Lemma issubset_strings (a b : list string) :
  issubset (VStr <$> a) (VStr <$> b) = true → a ⊆ b.
Proof.
  unfold issubset. rewrite forallb_forall. intros Hall x Hx.
  specialize (Hall (VStr x)).
  rewrite existsb_exists in Hall.
  destruct Hall as (y & Hy & Heq).
  - apply list_elem_of_In, list_elem_of_fmap. by exists x.
  - apply list_elem_of_In, list_elem_of_fmap in Hy as (z & -> & Hz).
    simpl in Heq. apply bool_decide_eq_true in Heq. by subst.
Qed.

Lemma py_set_strings (l : list string) : py_set (VList (VStr <$> l)) = Ok (VStr <$> l).
Proof.
  unfold py_set. simpl.
  assert (Hh : forallb hashable (VStr <$> l) = true).
  { apply forallb_forall. intros v Hv.
    apply list_elem_of_In, list_elem_of_fmap in Hv as (z & -> & _). done. }
  by rewrite Hh.
Qed.

Lemma exact_entry_grants (G : list string) (c : string) :
  c ∈ G → Auth.has_capability_loop (VStr <$> G) c = Ok true.
Proof.
  intros Hc. destruct (has_capability_loop_strings G c) as (b & -> & Hb).
  f_equal. apply Hb. exists c. split; [done | by left].
Qed.

Section Delegation.
Context `{Ext : Collaborators}.
Import Auth.

(** What an accepted delegation proof has passed. *)
Lemma verify_delegation_proof_accepted token delegatee parent env st d st' :
  verify_delegation_proof token delegatee parent env st = (Ok d, st') →
  verify_jwt_token token delegatee env st = (Ok d, st')
  ∧ value_eqb (py_get d "iss") (py_get parent "iss") = true
  ∧ value_eqb (py_get d "sub") (py_get parent "sub") = true
  ∧ value_eqb (py_get d "delegatee") (VStr delegatee) = true
  ∧ ∃ orig_caps del_caps,
      py_set (py_get_default parent "capabilities" (VList [])) = Ok orig_caps
      ∧ py_set (py_get_default d "capabilities" (VList [])) = Ok del_caps
      ∧ issubset del_caps orig_caps = true.
Proof.
  unfold verify_delegation_proof. run.
  destruct (verify_jwt_token token delegatee env st) as [[payload|e] s1]; [| done].
  destruct (value_eqb (py_get payload "iss") (py_get parent "iss")) eqn:Hi; [| done].
  destruct (value_eqb (py_get payload "sub") (py_get parent "sub")) eqn:Hs; [| done].
  destruct (value_eqb (py_get payload "delegatee") (VStr delegatee)) eqn:Hd; [| done].
  cbn [negb]. run.
  destruct (py_set (py_get_default parent "capabilities" (VList [])))
    as [orig_caps|]; [| done].
  destruct (py_set (py_get_default payload "capabilities" (VList [])))
    as [del_caps|] eqn:Hdel; [| done].
  destruct (issubset del_caps orig_caps) eqn:Hsub; [| done].
  cbn [negb]. intros [= <- <-]. do 4 (split; [done |]).
  exists orig_caps, del_caps. by rewrite Hdel.
Qed.

(** A delegation token that verifies and agrees with the parent on issuer,
    subject and delegatee is still turned down when one of its capability
    strings is not itself an entry of the parent's list. *)
Lemma verify_delegation_proof_escalation token delegatee parent env st d st'
    (pcaps dcaps : list string) :
  verify_jwt_token token delegatee env st = (Ok d, st') →
  py_get d "iss" = py_get parent "iss" →
  py_get d "sub" = py_get parent "sub" →
  py_get d "delegatee" = VStr delegatee →
  parent !! "capabilities" = Some (VList (VStr <$> pcaps)) →
  d !! "capabilities" = Some (VList (VStr <$> dcaps)) →
  issubset (VStr <$> dcaps) (VStr <$> pcaps) = false →
  verify_delegation_proof token delegatee parent env st
  = (Raise (ValueError "Delegated capabilities exceed original token’s capabilities"),
     st').
Proof.
  intros Hv Hi Hs Hd Hp Hdc Hsub.
  assert (Hrefl : ∀ v, value_eqb v v = true).
  { fix IH 1. intros [| z | s | l]; simpl; try by rewrite ?bool_decide_eq_true.
    induction l as [|x l IHl]; [done |]. by rewrite IH, IHl. }
  unfold verify_delegation_proof. run. rewrite Hv, Hi, Hs, Hd, !Hrefl. cbn [negb]. run.
  unfold py_get_default. rewrite Hp, Hdc. cbn [from_option id].
  rewrite !py_set_strings, Hsub. done.
Qed.

End Delegation.

Section ToolInvocation.
Context `{Ext : Collaborators}.
Import ContextTool Middleware.

(** [max(0.0, 100.0 - 0.1 * 10)] prints as 99.0 *)
Lemma compute_pricing_stock_10 (arguments : gmap string string) :
  arguments !! "stock_count" = Some "10" →
  compute_pricing arguments = Ok "99.0".
Proof.
  intros Hstock. unfold compute_pricing. rewrite Hstock.
  vm_compute. reflexivity.
Qed.

(** When the caller's own token grants the tool, the delegation proof of the
    request is not looked at. *)
Lemma authorize_tool_direct request env st payload a' :
  Auth.verify_jwt_token (tool_capability_token request) SERVER_NAME env (auth st)
    = (Ok payload, a') →
  Auth.has_capability payload ("tool:" +:+ tool_name request) = Ok true →
  Auth.has_audience payload SERVER_NAME = Ok true →
  authorize_tool request env st = (Ok payload, set_auth a' st).
Proof.
  intros Hv Hc Ha. unfold authorize_tool. run.
  rewrite Hv. run. rewrite Hc. run. by rewrite Ha.
Qed.

Lemma InvokeTool_compute_pricing request env st payload a' sub price :
  Auth.verify_jwt_token (tool_capability_token request) SERVER_NAME env (auth st)
    = (Ok payload, a') →
  Auth.has_capability payload ("tool:" +:+ tool_name request) = Ok true →
  Auth.has_audience payload SERVER_NAME = Ok true →
  payload !! "sub" = Some sub →
  before_call (time_time env) (CIRCUIT st) = Ok true →
  tool_name request = "compute_pricing" →
  compute_pricing (arguments request) = Ok price →
  (InvokeTool request env st).1 =
    Ok {| success := true; outputs := {[ "recommended_price" := price ]};
          warnings := [] |}.
Proof.
  intros Hv Hc Ha Hs Hb Hn Hp. unfold InvokeTool. run.
  rewrite (authorize_tool_direct _ _ _ _ _ Hv Hc Ha). run.
  rewrite Hb. run. rewrite Hn.
  rewrite bool_decide_eq_true_2 by done.
  rewrite Hp. run. unfold py_index. by rewrite Hs.
Qed.

(** C1, amended. [verify_delegation_proof] accepts a delegation token only
    if every capability string of the delegation is itself an entry of the
    parent's list (and is therefore granted by the parent under the matcher
    rule); a wildcard entry of the parent covers none. For a parent with
    ["tool:*"] and a delegation with ["tool:compute_pricing"], same issuer and
    subject, delegatee ContextToolServer and a valid audience, it raises
    ValueError. InvokeTool("compute_pricing", sku x, stock_count 10) called
    with that parent token and delegation proof returns success with
    recommended_price 99.0 all the same: the parent's own tool:* grants the
    tool and the delegation proof is not examined. *)
Theorem delegation_subset_is_literal request env st parent a' sub d a'' :
  Auth.verify_jwt_token (tool_capability_token request) SERVER_NAME env (auth st)
    = (Ok parent, a') →
  parent !! "capabilities" = Some (VList (VStr <$> ["tool:*"])) →
  parent !! "sub" = Some sub →
  Auth.has_audience parent SERVER_NAME = Ok true →
  Auth.verify_jwt_token (agent_delegation_proof request) SERVER_NAME env a'
    = (Ok d, a'') →
  d !! "capabilities" = Some (VList (VStr <$> ["tool:compute_pricing"])) →
  py_get d "iss" = py_get parent "iss" →
  py_get d "sub" = py_get parent "sub" →
  py_get d "delegatee" = VStr SERVER_NAME →
  before_call (time_time env) (CIRCUIT st) = Ok true →
  tool_name request = "compute_pricing" →
  arguments request !! "sku" = Some "x" →
  arguments request !! "stock_count" = Some "10" →
  (∀ token delegatee original e s accepted s' (pcaps dcaps : list string),
     Auth.verify_delegation_proof token delegatee original e s = (Ok accepted, s') →
     original !! "capabilities" = Some (VList (VStr <$> pcaps)) →
     accepted !! "capabilities" = Some (VList (VStr <$> dcaps)) →
     dcaps ⊆ pcaps ∧ ∀ c, c ∈ dcaps → Auth.has_capability original c = Ok true)
  ∧ Auth.verify_delegation_proof (agent_delegation_proof request) SERVER_NAME parent env a'
    = (Raise (ValueError "Delegated capabilities exceed original token’s capabilities"),
       a'')
  ∧ (InvokeTool request env st).1 =
      Ok {| success := true; outputs := {[ "recommended_price" := "99.0" ]};
            warnings := [] |}.
Proof.
  intros Hp Hpc Hps Hpa Hd Hdc Hi Hs Hdel Hb Hn _ Hstock.
  split; [| split].
  - intros token delegatee original e s accepted s' pcaps dcaps Hacc Ho Ha.
    apply verify_delegation_proof_accepted in Hacc
      as (_ & _ & _ & _ & orig_caps & del_caps & Hoc & Hdcaps & Hsub).
    unfold py_get_default in Hoc, Hdcaps. rewrite Ho in Hoc. rewrite Ha in Hdcaps.
    cbn [from_option id] in Hoc, Hdcaps.
    rewrite py_set_strings in Hoc, Hdcaps.
    injection Hoc as <-. injection Hdcaps as <-.
    apply issubset_strings in Hsub. split; [exact Hsub |].
    intros c Hc. unfold Auth.has_capability, py_get_default. rewrite Ho.
    cbn [from_option id py_iter]. apply exact_entry_grants. by apply Hsub.
  - apply (verify_delegation_proof_escalation _ _ _ _ _ d _
             ["tool:*"] ["tool:compute_pricing"]); try done.
  - apply (InvokeTool_compute_pricing _ _ _ _ _ sub _ Hp); try done.
    + rewrite Hn. unfold Auth.has_capability, py_get_default. rewrite Hpc.
      vm_compute. reflexivity.
    + by apply compute_pricing_stock_10.
Qed.

End ToolInvocation.

(** C1 as first stated has the delegation of the example accepted. With the
    parent claims ["tool:*"] and a delegation token that verifies, names the
    same issuer and subject and the delegatee ContextToolServer, and carries
    ["tool:compute_pricing"], [verify_delegation_proof] raises. *)
Lemma wildcard_parent_delegation_rejected :
  (Auth.verify_jwt_token (Ext := Fixture.demo) "delegation" "ContextToolServer"
     (Fixture.env_at 100 ["k1"] Fixture.no_db) Auth.initial).1
  = Ok (<["delegatee" := VStr "ContextToolServer"]>
          (Fixture.claims "alice" ["ContextToolServer"] ["tool:compute_pricing"]))
  ∧ (Auth.verify_delegation_proof (Ext := Fixture.demo) "delegation" "ContextToolServer"
       (Fixture.claims "alice" ["ContextToolServer"] ["tool:*"])
       (Fixture.env_at 100 ["k1"] Fixture.no_db) Auth.initial).1
    = Raise (ValueError "Delegated capabilities exceed original token’s capabilities").
Proof. vm_compute. by split. Qed.

Lemma delegation_subset_is_literal_witness :
  Auth.verify_delegation_proof (Ext := Fixture.demo) "delegation" "ContextToolServer"
    (Fixture.claims "alice" ["ContextToolServer"] ["tool:*"])
    (Fixture.env_at 100 ["k1"] Fixture.no_db) (Fixture.fetched 100 ["k1"])
  = (Raise (ValueError "Delegated capabilities exceed original token’s capabilities"),
     Fixture.fetched 100 ["k1"])
  ∧ (ContextTool.InvokeTool (Ext := Fixture.demo) (Fixture.pricing_request "delegation")
       (Fixture.env_at 100 ["k1"] Fixture.no_db) ContextTool.initial).1
    = Ok {| ContextTool.success := true;
            ContextTool.outputs := {[ "recommended_price" := "99.0" ]};
            ContextTool.warnings := [] |}.
Proof.
  refine (proj2 (delegation_subset_is_literal (Ext := Fixture.demo)
            (Fixture.pricing_request "delegation")
            (Fixture.env_at 100 ["k1"] Fixture.no_db) ContextTool.initial
            (Fixture.claims "alice" ["ContextToolServer"] ["tool:*"])
            (Fixture.fetched 100 ["k1"]) (VStr "alice")
            (<["delegatee" := VStr "ContextToolServer"]>
               (Fixture.claims "alice" ["ContextToolServer"] ["tool:compute_pricing"]))
            (Fixture.fetched 100 ["k1"])
            _ _ _ _ _ _ _ _ _ _ _ _ _));
    vm_compute; reflexivity.
Defined.

(** ** The event bus (event_bus_server.py, [Publish]) *)

Section Sequence.
Context `{Ext : Collaborators}.
Import EventBus.

(** The authorization block touches nothing but the key-set cache. *)
Lemma authorize_publish_frame request env st r st' :
  authorize_publish request env st = (r, st') →
  TOPIC_COUNTER st' = TOPIC_COUNTER st ∧ published st' = published st.
Proof.
  unfold authorize_publish. run.
  destruct (Auth.verify_jwt_token _ _ _ _) as [[payload|e] a']; run;
    [| by intros [= <- <-]].
  destruct (Auth.has_capability payload _) as [[|]|]; run;
    [| | by intros [= <- <-]].
  - destruct (Auth.has_audience payload SERVER_NAME) as [[|]|]; run;
      by intros [= <- <-].
  - destruct (Auth.has_capability payload _) as [[|]|]; run;
      try by intros [= <- <-].
    destruct (Auth.has_audience payload SERVER_NAME) as [[|]|]; run;
      by intros [= <- <-].
Qed.

(** A Publish that returns has taken the next number of its topic and
    handed one envelope carrying it to the broker. *)
Lemma Publish_ok request env st resp st' :
  Publish request env st = (Ok resp, st') →
  let seq := (default 0 (TOPIC_COUNTER st !! topic request) + 1)%Z in
  TOPIC_COUNTER st' = <[topic request := seq]> (TOPIC_COUNTER st)
  ∧ ∃ e, published st' = published st ++ [("mcp2:event:" +:+ topic request, e)]
         ∧ env_topic e = topic request ∧ sequence_id e = seq.
Proof.
  unfold Publish. run.
  destruct (authorize_publish request env st) as [[payload|e] s1] eqn:Hauth;
    [| done].
  apply authorize_publish_frame in Hauth as [Hc Hp].
  unfold redis_publish. destruct (redis_publish_ok env); run; [| done].
  destruct (py_index payload "sub"); [| done].
  intros [= <- <-]. cbn [TOPIC_COUNTER published]. rewrite Hc, Hp.
  split; [done |]. eexists. split; [done |]. by split.
Qed.

Lemma sequence_ids_app t log1 log2 :
  sequence_ids t (log1 ++ log2) = sequence_ids t log1 ++ sequence_ids t log2.
Proof. unfold sequence_ids. by rewrite fmap_app, filter_app, fmap_app. Qed.

Lemma serve_Publish_sequence calls st t :
  Forall (λ r, is_ok r = true) (serve_Publish calls st).1 →
  sequence_ids t (published (serve_Publish calls st).2)
  = sequence_ids t (published st)
    ++ seqZ (default 0 (TOPIC_COUNTER st !! t) + 1)%Z
            (Z.of_nat (length (filter (λ c, topic c.1 = t) calls))).
Proof.
  revert st. induction calls as [|[request env] calls IH]; intros st.
  - simpl. intros _. by rewrite app_nil_r.
  - cbn [serve_Publish].
    destruct (Publish request env st) as [r st1] eqn:Hpub.
    specialize (IH st1).
    destruct (serve_Publish calls st1) as [rs st2]. cbn [fst snd] in *.
    intros Hall. apply Forall_cons in Hall as [Hr Hrs].
    destruct r as [resp|]; [| done].
    apply Publish_ok in Hpub as (Hc & e & Hp & Htopic & Hseq).
    rewrite (IH Hrs), Hp, Hc, sequence_ids_app, <- app_assoc. f_equal.
    rewrite filter_cons. cbn [fst].
    unfold sequence_ids at 1. cbn [fmap list_fmap snd]. rewrite filter_cons, Htopic.
    destruct (decide (topic request = t)) as [<- | Hne].
    + rewrite filter_nil. cbn [fmap list_fmap app length]. rewrite Hseq.
      rewrite lookup_insert_eq. cbn [from_option id].
      rewrite Nat2Z.inj_succ.
      rewrite (seqZ_cons (default 0%Z (TOPIC_COUNTER st !! topic request) + 1)%Z) by lia.
      f_equal. f_equal; lia.
    + rewrite filter_nil. cbn [fmap list_fmap app].
      by rewrite lookup_insert_ne.
Qed.

(** An authorized Publish takes the next number of its topic, whether or not
    the broker then accepts the envelope. *)
Lemma Publish_authorized request env st :
  is_ok (authorize_publish request env st).1 = true →
  TOPIC_COUNTER (Publish request env st).2
  = <[topic request := (default 0 (TOPIC_COUNTER st !! topic request) + 1)%Z]>
      (TOPIC_COUNTER st).
Proof.
  unfold Publish. run.
  destruct (authorize_publish request env st) as [[payload|e] s1] eqn:Hauth;
    [| done].
  apply authorize_publish_frame in Hauth as [Hc _]. intros _.
  unfold redis_publish. destruct (redis_publish_ok env); run; [| by rewrite Hc].
  destruct (py_index payload "sub"); cbn [snd TOPIC_COUNTER]; by rewrite Hc.
Qed.

Lemma counters_after_sequence calls st t :
  all_authorized calls st →
  (filter (λ p, p.1 = t) (counters_after calls st)).*2
  = seqZ (default 0 (TOPIC_COUNTER st !! t) + 1)%Z
         (Z.of_nat (length (filter (λ c, topic c.1 = t) calls))).
Proof.
  revert st. induction calls as [|[request env] calls IH]; intros st; [done |].
  cbn [all_authorized counters_after]. intros [Hauth Hrest].
  rewrite !filter_cons. cbn [fst].
  specialize (IH _ Hrest). rewrite (Publish_authorized _ _ _ Hauth) in IH |- *.
  destruct (decide (topic request = t)) as [<- | Hne].
  - cbn [fmap list_fmap snd length]. rewrite IH, !lookup_insert_eq.
    cbn [from_option id]. rewrite Nat2Z.inj_succ.
    rewrite (seqZ_cons (default 0%Z (TOPIC_COUNTER st !! topic request) + 1)%Z) by lia.
    f_equal. f_equal; lia.
  - rewrite IH. by rewrite lookup_insert_ne.
Qed.

(** C6. In a process that starts with no counters, a run of authorized
    Publish calls gives the calls of each topic the numbers 1, 2, ..., N in
    order, N being the number of calls for that topic, however the calls for
    different topics are interleaved; and when every call goes through, these
    are the numbers the envelopes of the topic carry at the broker. *)
Theorem Publish_sequence_ids (calls : list (PublishRequest * Env)) (t : string) :
  all_authorized calls initial →
  (filter (λ p, p.1 = t) (counters_after calls initial)).*2
  = seqZ 1 (Z.of_nat (length (filter (λ c, topic c.1 = t) calls)))
  ∧ (Forall (λ r, is_ok r = true) (serve_Publish calls initial).1 →
     sequence_ids t (published (serve_Publish calls initial).2)
     = seqZ 1 (Z.of_nat (length (filter (λ c, topic c.1 = t) calls)))).
Proof.
  intros Hauth. split.
  - by rewrite (counters_after_sequence calls initial t Hauth).
  - intros Hall. by rewrite (serve_Publish_sequence calls initial t Hall).
Qed.

End Sequence.

Lemma Publish_sequence_ids_witness :
  all_authorized (Ext := Fixture.demo) Fixture.interleaved EventBus.initial
  ∧ (filter (λ p, p.1 = "inventory")
       (counters_after (Ext := Fixture.demo) Fixture.interleaved EventBus.initial)).*2
    = [1; 2; 3]%Z
  ∧ sequence_ids "inventory"
      (EventBus.published
         (serve_Publish (Ext := Fixture.demo) Fixture.interleaved EventBus.initial).2)
    = [1; 2; 3]%Z
  ∧ sequence_ids "orders"
      (EventBus.published
         (serve_Publish (Ext := Fixture.demo) Fixture.interleaved EventBus.initial).2)
    = [1; 2]%Z.
Proof.
  assert (Hauth : all_authorized (Ext := Fixture.demo) Fixture.interleaved
                    EventBus.initial)
    by (vm_compute; repeat split).
  assert (Hall : Forall (λ r, is_ok r = true)
                   (serve_Publish (Ext := Fixture.demo) Fixture.interleaved
                      EventBus.initial).1)
    by (vm_compute; repeat constructor).
  split; [exact Hauth |]. split; [| split].
  - exact (proj1 (Publish_sequence_ids (Ext := Fixture.demo) Fixture.interleaved
                    "inventory" Hauth)).
  - exact (proj2 (Publish_sequence_ids (Ext := Fixture.demo) Fixture.interleaved
                    "inventory" Hauth) Hall).
  - exact (proj2 (Publish_sequence_ids (Ext := Fixture.demo) Fixture.interleaved
                    "orders" Hauth) Hall).
Defined.

(** ** The registry (registry_server.py, [lookup_in_redis] and [Lookup]) *)

Lemma str_split_no_more (sep : ascii) (s : string) :
  str_split sep (Some 0) s = [s].
Proof.
  induction s as [|a s IH]; [done |].
  cbn [str_split]. rewrite IH.
  rewrite (bool_decide_eq_true_2 (Some 0 = Some 0)) by done.
  by rewrite andb_false_r.
Qed.

(** [key.decode().split(":", 2)[-1]] gives back the name a key was made
    from, colons in the name included. *)
Lemma server_name_of_key (name : string) :
  List.last (str_split ":" (Some 2) (Registry._redis_key_for name)) "" = name.
Proof.
  assert (Hsplit : str_split ":" (Some 2) (Registry._redis_key_for name)
                   = "mcp2" :: "registry" :: str_split ":" (Some 0) name)
    by reflexivity.
  by rewrite Hsplit, str_split_no_more.
Qed.

Lemma registry_key_inv (key : string) :
  startswith key "mcp2:registry:" = true →
  ∃ name, key = Registry._redis_key_for name.
Proof. intros Hk. by apply startswith_spec in Hk. Qed.

Lemma cap_matches_covers (cap cap_filter : string) :
  Registry.cap_matches cap cap_filter = true ↔ covers cap cap_filter.
Proof.
  unfold Registry.cap_matches, covers.
  by rewrite orb_true_iff, bool_decide_eq_true, wildcard_test_spec.
Qed.

Section Lookup.
Import Registry.

Lemma answers_spec cap_filters caps :
  answers cap_filters caps = true ↔
  ∃ cap f, cap ∈ caps ∧ f ∈ cap_filters ∧ covers cap f.
Proof.
  unfold answers. rewrite existsb_exists. split.
  - intros (f & Hf & Hc). apply existsb_exists in Hc as (c & Hc & Hm).
    exists c, f. rewrite !list_elem_of_In. by rewrite <- cap_matches_covers.
  - intros (c & f & Hc & Hf & Hm). exists f. rewrite <- list_elem_of_In.
    split; [done |]. apply existsb_exists. exists c.
    by rewrite <- list_elem_of_In, cap_matches_covers.
Qed.

Lemma caps_loop_spec out entry cap_filter caps :
  caps_loop out entry cap_filter caps =
    if existsb (λ c, cap_matches c cap_filter) caps
    then (out ++ [entry], true) else (out, false).
Proof.
  induction caps as [|cap caps IH]; [done |].
  cbn [caps_loop existsb]. by destruct (cap_matches cap cap_filter).
Qed.

(** The entry is appended once, or not at all. *)
Lemma filters_loop_spec out entry cap_filters caps :
  filters_loop out entry cap_filters caps =
    if answers cap_filters caps then out ++ [entry] else out.
Proof.
  unfold answers. induction cap_filters as [|f fs IH]; [done |].
  cbn [filters_loop existsb]. rewrite caps_loop_spec.
  by destruct (existsb (λ c, cap_matches c f) caps).
Qed.

Lemma keys_loop_spec out keys cap_filters :
  keys_loop out keys cap_filters = out ++ omap (reported cap_filters) keys.
Proof.
  revert out. induction keys as [|[key data] keys IH]; intros out.
  - by rewrite app_nil_r.
  - cbn [keys_loop omap list_omap]. rewrite IH, filters_loop_spec.
    unfold reported at 2. cbn [fst snd]. fold (endpoint_of (List.last (str_split ":" (Some 2) key) "") data).
    destruct (answers cap_filters (capabilities data)); [| done].
    by rewrite <- app_assoc.
Qed.

Lemma elem_of_scan_iter redis key v :
  (key, v) ∈ scan_iter redis ↔
  startswith key "mcp2:registry:" = true ∧ redis !! key = Some v.
Proof.
  unfold scan_iter. by rewrite list_elem_of_filter, elem_of_map_to_list.
Qed.

(** [lookup_in_redis] returns the records whose capabilities answer the
    filters, each under the name it was registered with. *)
Lemma lookup_in_redis_elem cap_filters redis e :
  e ∈ lookup_in_redis cap_filters redis ↔
  ∃ name v, redis !! _redis_key_for name = Some v ∧ e = endpoint_of name v
            ∧ answers cap_filters (capabilities v) = true.
Proof.
  unfold lookup_in_redis. rewrite keys_loop_spec, app_nil_l, list_elem_of_omap.
  split.
  - intros ([key v] & Hin & Hrep). apply elem_of_scan_iter in Hin as [Hk Hv].
    apply registry_key_inv in Hk as [name ->].
    unfold reported in Hrep. cbn [fst snd] in Hrep.
    rewrite server_name_of_key in Hrep.
    destruct (answers cap_filters (capabilities v)) eqn:Hans; [| done].
    injection Hrep as <-. by exists name, v.
  - intros (name & v & Hv & -> & Hans). exists (_redis_key_for name, v). split.
    + apply elem_of_scan_iter. split; [| done]. apply startswith_spec. by exists name.
    + unfold reported. cbn [fst snd]. by rewrite server_name_of_key, Hans.
Qed.

Lemma reported_names_NoDup cap_filters (keys : list (string * RegistryValue)) :
  NoDup keys.*1 →
  (∀ kv, kv ∈ keys → startswith kv.1 "mcp2:registry:" = true) →
  NoDup (server_name <$> omap (reported cap_filters) keys).
Proof.
  induction keys as [|[key data] keys IH]; [constructor |].
  cbn [fmap list_fmap fst]. rewrite NoDup_cons. intros [Hnotin Hnd] Hpre.
  assert (Hrest : NoDup (server_name <$> omap (reported cap_filters) keys)).
  { apply IH; [done |]. intros kv Hkv. apply Hpre. by right. }
  cbn [omap list_omap]. destruct (reported cap_filters (key, data)) as [e|] eqn:Hrep;
    [| done].
  cbn [fmap list_fmap]. apply NoDup_cons. split; [| done].
  intros Hdup. apply Hnotin.
  apply list_elem_of_fmap in Hdup as (e' & Hname & He').
  apply list_elem_of_omap in He' as ([key' data'] & Hin' & Hrep').
  destruct (registry_key_inv key) as [name ->]; [apply (Hpre (key, data)); left |].
  destruct (registry_key_inv key') as [name' ->];
    [apply (Hpre (key', data')); by right |].
  unfold reported in Hrep, Hrep'. cbn [fst snd] in Hrep, Hrep'.
  rewrite server_name_of_key in Hrep, Hrep'.
  destruct (answers cap_filters (capabilities data)); [| done].
  destruct (answers cap_filters (capabilities data')); [| done].
  injection Hrep as <-. injection Hrep' as <-. cbn [server_name endpoint_of] in Hname.
  subst name'. apply list_elem_of_fmap. by exists (_redis_key_for name, data').
Qed.

Lemma lookup_in_redis_NoDup cap_filters redis :
  NoDup (server_name <$> lookup_in_redis cap_filters redis).
Proof.
  unfold lookup_in_redis. rewrite keys_loop_spec, app_nil_l.
  apply reported_names_NoDup.
  - unfold scan_iter.
    apply (sublist_NoDup _ (map_to_list redis).*1);
      [apply NoDup_fst_map_to_list |].
    apply fmap_sublist, sublist_filter.
  - intros [key v] Hkv. by apply elem_of_scan_iter in Hkv as [Hk _].
Qed.

(** Whether [has_audience] raises depends on the audience claim alone. *)
Lemma has_audience_total payload target :
  is_ok (Auth.has_audience payload target) = true →
  ∀ name, ∃ b, Auth.has_audience payload name = Ok b.
Proof.
  unfold Auth.has_audience. intros Hok name.
  destruct (py_get payload "aud") as [| z | a | l]; cbn in *; try by eexists.
  - destruct (negb (bool_decide (z = 0%Z))); [done | by eexists].
  - destruct (negb (bool_decide (l = []))); by eexists.
Qed.

Lemma endpoints_loop_spec payload matches endpoints :
  (∀ name, ∃ b, Auth.has_audience payload name = Ok b) →
  endpoints_loop payload matches endpoints =
    Ok (endpoints
        ++ filter (λ e, Auth.has_audience payload (server_name e) = Ok true) matches).
Proof.
  intros Htotal. revert endpoints.
  induction matches as [|entry matches IH]; intros endpoints.
  - by rewrite filter_nil, app_nil_r.
  - cbn [endpoints_loop]. rewrite filter_cons.
    destruct (Htotal (server_name entry)) as [[|] Hb]; rewrite Hb, IH.
    + rewrite decide_True by done. by rewrite <- app_assoc.
    + by rewrite decide_False by done.
Qed.

Lemma filter_names_NoDup (P : EndpointDescriptor → Prop) `{∀ e, Decision (P e)}
    (l : list EndpointDescriptor) :
  NoDup (server_name <$> l) → NoDup (server_name <$> filter P l).
Proof.
  intros Hnd. eapply sublist_NoDup; [exact Hnd |].
  apply fmap_sublist, sublist_filter.
Qed.

End Lookup.

Section LookupRpc.
Context `{Ext : Collaborators}.
Import Registry.

Lemma Lookup_authorized request env st payload a' sub :
  requester_token request ≠ "" →
  Auth.verify_jwt_token (requester_token request) SERVER_NAME env (auth st)
    = (Ok payload, a') →
  Auth.has_capability payload "registry:lookup" = Ok true →
  payload !! "sub" = Some sub →
  is_ok (Auth.has_audience payload SERVER_NAME) = true →
  (Lookup request env st).1 =
    Ok (filter (λ e, Auth.has_audience payload (server_name e) = Ok true)
               (lookup_in_redis (capability_filter request) (REDIS st))).
Proof.
  intros Htok Hv Hc Hs Haud. unfold Lookup. run.
  rewrite bool_decide_eq_false_2 by done. run.
  rewrite Hv. run. rewrite Hc. run.
  rewrite (endpoints_loop_spec _ _ _ (has_audience_total _ _ Haud)).
  run. unfold py_index. by rewrite Hs.
Qed.

(** A list whose members are exactly [x], without repeated names, is [[x]]. *)
Lemma only_member (l : list EndpointDescriptor) (x : EndpointDescriptor) :
  NoDup (server_name <$> l) → (∀ e, e ∈ l ↔ e = x) → l = [x].
Proof.
  intros Hnd Hmem. destruct l as [|y l].
  - exfalso. eapply not_elem_of_nil. apply Hmem. reflexivity.
  - assert (y = x) as -> by (apply Hmem; left).
    destruct l as [|z l]; [done |].
    assert (z = x) as -> by (apply Hmem; right; left).
    cbn [fmap list_fmap] in Hnd. apply NoDup_cons in Hnd as [Hnotin _].
    exfalso. apply Hnotin. left.
Qed.

Lemma _redis_key_for_inj (name name' : string) :
  _redis_key_for name = _redis_key_for name' → name = name'.
Proof. unfold _redis_key_for. apply (inj (String.app _)). Qed.

(** C7, amended. For a caller that is authenticated and holds
    [registry:lookup], Lookup returns the records of the registry of which
    some stored capability matches some requested filter (equal to it, or
    ending in a star with the filter starting with what precedes the star),
    without those whose name the caller's audience claim does not match, and
    no name twice. With records A and B both answering the filter and a
    caller whose audience is A and RegistryServer, the endpoint of A alone is
    returned. *)
Theorem Lookup_returns_matching_records request env st payload a' sub :
  requester_token request ≠ "" →
  Auth.verify_jwt_token (requester_token request) SERVER_NAME env (auth st)
    = (Ok payload, a') →
  Auth.has_capability payload "registry:lookup" = Ok true →
  payload !! "sub" = Some sub →
  is_ok (Auth.has_audience payload SERVER_NAME) = true →
  ∃ endpoints,
    (Lookup request env st).1 = Ok endpoints
    ∧ (∀ e, e ∈ endpoints ↔
         ∃ name v,
           REDIS st !! _redis_key_for name = Some v
           ∧ e = endpoint_of name v
           ∧ (∃ cap f, cap ∈ capabilities v ∧ f ∈ capability_filter request
                       ∧ covers cap f)
           ∧ Auth.has_audience payload name = Ok true)
    ∧ NoDup (server_name <$> endpoints)
    ∧ (∀ vA vB,
         REDIS st = {[ _redis_key_for "A" := vA; _redis_key_for "B" := vB ]} →
         answers (capability_filter request) (capabilities vA) = true →
         answers (capability_filter request) (capabilities vB) = true →
         payload !! "aud" = Some (VList [VStr "A"; VStr "RegistryServer"]) →
         endpoints = [endpoint_of "A" vA]).
Proof.
  intros Htok Hv Hc Hs Haud. eexists. split; [by eapply Lookup_authorized |].
  assert (Hmem : ∀ e,
    e ∈ filter (λ e, Auth.has_audience payload (server_name e) = Ok true)
          (lookup_in_redis (capability_filter request) (REDIS st)) ↔
    ∃ name v,
      REDIS st !! _redis_key_for name = Some v
      ∧ e = endpoint_of name v
      ∧ (∃ cap f, cap ∈ capabilities v ∧ f ∈ capability_filter request ∧ covers cap f)
      ∧ Auth.has_audience payload name = Ok true).
  { intros e. rewrite list_elem_of_filter, lookup_in_redis_elem. split.
    - intros (Ha & name & v & Hv' & -> & Hans).
      exists name, v. by rewrite <- answers_spec.
    - intros (name & v & Hv' & -> & Hans & Ha). split; [done |].
      exists name, v. by rewrite answers_spec. }
  assert (Hnd : NoDup (server_name <$>
    filter (λ e, Auth.has_audience payload (server_name e) = Ok true)
      (lookup_in_redis (capability_filter request) (REDIS st))))
    by apply filter_names_NoDup, lookup_in_redis_NoDup.
  split; [exact Hmem |]. split; [exact Hnd |].
  intros vA vB Hredis HansA HansB Ha.
  assert (HaudA : Auth.has_audience payload "A" = Ok true).
  { unfold Auth.has_audience, py_get. rewrite Ha. reflexivity. }
  assert (HaudB : Auth.has_audience payload "B" = Ok false).
  { unfold Auth.has_audience, py_get. rewrite Ha. reflexivity. }
  apply only_member; [exact Hnd |].
  intros e. rewrite Hmem, Hredis. split.
  - intros (name & v & Hlook & -> & _ & Hname).
    apply lookup_insert_Some in Hlook as [[Hk <-] | [_ Hlook]].
    + by apply _redis_key_for_inj in Hk as <-.
    + apply lookup_singleton_Some in Hlook as [Hk <-].
      apply _redis_key_for_inj in Hk as <-. congruence.
  - intros ->. exists "A", vA. split; [apply lookup_insert_eq |].
    split; [done |]. split; [by apply answers_spec | done].
Qed.

End LookupRpc.

Lemma Lookup_returns_matching_records_witness :
  ∃ endpoints,
    (Registry.Lookup (Ext := Fixture.demo) (Fixture.lookup_request "seeker")
       (Fixture.env_at 10 ["k1"] Fixture.no_db) Fixture.registry_A_B).1 = Ok endpoints
    ∧ endpoints = [endpoint_of "A"
                     {| Registry.grpc_url := "127.0.0.1:50061";
                        Registry.capabilities := ["db:inventory:*"];
                        Registry.registered_at := 1 |}].
Proof.
  destruct (Lookup_returns_matching_records (Ext := Fixture.demo)
              (Fixture.lookup_request "seeker")
              (Fixture.env_at 10 ["k1"] Fixture.no_db) Fixture.registry_A_B
              (Fixture.claims "carol" ["A"; "RegistryServer"] ["registry:lookup"])
              (Fixture.fetched 10 ["k1"]) (VStr "carol"))
    as (endpoints & Hres & _ & _ & Honly);
    try (vm_compute; reflexivity).
  { vm_compute. discriminate. }
  exists endpoints. split; [exact Hres |].
  apply (Honly _ {| Registry.grpc_url := "127.0.0.1:50062";
                    Registry.capabilities := ["db:inventory:read"];
                    Registry.registered_at := 2 |});
    vm_compute; reflexivity.
Defined.

(** C7 as first stated has the caller's audience name [A] only. Lookup
    verifies the caller's token for the audience RegistryServer before
    anything else; a token whose audience is [A] alone does not pass, and no
    endpoint is returned although the records of [A] and [B] both answer the
    filter. *)
Lemma Lookup_refuses_audience_A_alone :
  Fixture.claims "carol" ["A"] ["registry:lookup"] !! "aud" = Some (VList [VStr "A"])
  ∧ Registry.server_name
      <$> Registry.lookup_in_redis ["db:inventory:read"]
            (Registry.REDIS Fixture.registry_A_B)
    = ["A"; "B"]
  ∧ (Registry.Lookup (Ext := Fixture.demo) (Fixture.lookup_request "narrow")
       (Fixture.env_at 10 ["k1"] Fixture.no_db) Fixture.registry_A_B).1
    = Raise (RpcAbort UNAUTHENTICATED).
Proof. vm_compute. repeat split. Qed.

(** ** Claims that grant nothing *)

Lemma issubset_nil (a : list value) : issubset a [] = true → a = [].
Proof. by destruct a. Qed.

Lemma py_set_nil (v : value) : py_set v = Ok [] → v = VList [] ∨ v = VStr "".
Proof.
  unfold py_set. destruct v as [| z | s | l]; cbn [py_iter]; try done.
  - destruct s; [by right |]. cbn [chars].
    by destruct (forallb hashable _).
  - destruct (forallb hashable l); [| done]. intros [= ->]. by left.
Qed.

Lemma py_in_nothing (required : string) (v : value) :
  required ≠ "" → v = VList [] ∨ v = VStr "" → py_in required v = Ok false.
Proof.
  intros Hne [-> | ->]; [done |]. cbn. by destruct required.
Qed.

Section DefaultDeny.
Context `{Ext : Collaborators}.

Lemma authorize_tool_no_caps request env st payload a' :
  Auth.verify_jwt_token (ContextTool.tool_capability_token request)
    ContextTool.SERVER_NAME env (ContextTool.auth st) = (Ok payload, a') →
  payload !! "capabilities" = None ∨ payload !! "capabilities" = Some (VList []) →
  ∃ e s, ContextTool.authorize_tool request env st = (Raise e, s).
Proof.
  intros Hv Hcaps. unfold ContextTool.authorize_tool. run.
  rewrite Hv. run. rewrite (has_capability_no_caps _ _ Hcaps). run.
  case_bool_decide; run; [by eexists _, _ |].
  destruct (Auth.verify_delegation_proof _ _ _ _ _) as [[d|e] s] eqn:Hdel;
    [| by eexists _, _].
  apply verify_delegation_proof_accepted in Hdel
    as (_ & _ & _ & _ & orig_caps & del_caps & Ho & Hd & Hsub).
  assert (orig_caps = []) as ->.
  { unfold py_get_default in Ho. by destruct Hcaps as [Hc | Hc]; rewrite Hc in Ho;
      injection Ho. }
  apply issubset_nil in Hsub as ->. apply py_set_nil in Hd.
  assert (Hne : "tool:" +:+ ContextTool.tool_name request ≠ "") by done.
  rewrite (py_in_nothing _ _ Hne Hd). run. by eexists _, _.
Qed.

(** C9. Claims without a capabilities field, or with an empty list there, are
    granted nothing: [has_capability] returns false for every required
    capability, it does not raise. RequestContext, InvokeTool (with or
    without a delegation proof), Publish, Lookup and Register, and the
    admission steps of SubscribeTelemetry, MultiModalExchange and Subscribe,
    each answer a caller with such claims by an abort, never by a result and
    never by an exception of another kind; Register leaves the registry as
    it was. *)
Theorem no_capabilities_no_access (payload : gmap string value) :
  payload !! "capabilities" = None ∨ payload !! "capabilities" = Some (VList []) →
  (∀ required, Auth.has_capability payload required = Ok false)
  ∧ (∀ request env st a',
       Auth.verify_jwt_token (ContextTool.capability_token request)
         ContextTool.SERVER_NAME env (ContextTool.auth st) = (Ok payload, a') →
       (ContextTool.RequestContext request env st).1 = Raise (RpcAbort UNAUTHENTICATED))
  ∧ (∀ request env st a',
       Auth.verify_jwt_token (ContextTool.tool_capability_token request)
         ContextTool.SERVER_NAME env (ContextTool.auth st) = (Ok payload, a') →
       (ContextTool.InvokeTool request env st).1 = Raise (RpcAbort UNAUTHENTICATED))
  ∧ (∀ request env st a',
       Auth.verify_jwt_token (EventBus.publisher_token request)
         EventBus.SERVER_NAME env (EventBus.auth st) = (Ok payload, a') →
       (EventBus.Publish request env st).1 = Raise (RpcAbort UNAUTHENTICATED))
  ∧ (∀ request env st a',
       Auth.verify_jwt_token (Registry.requester_token request)
         Registry.SERVER_NAME env (Registry.auth st) = (Ok payload, a') →
       (Registry.Lookup request env st).1 = Raise (RpcAbort UNAUTHENTICATED))
  ∧ (∀ request env st a',
       Auth.verify_jwt_token
         (default "" (Registry.invocation_metadata request !! "registration_token"))
         Registry.SERVER_NAME env (Registry.auth st) = (Ok payload, a') →
       (Registry.Register request env st).1 = Raise (RpcAbort UNAUTHENTICATED)
       ∧ Registry.REDIS (Registry.Register request env st).2 = Registry.REDIS st)
  ∧ (∀ token env st a',
       Auth.verify_jwt_token token ContextTool.SERVER_NAME env (ContextTool.auth st)
         = (Ok payload, a') →
       (ContextTool.SubscribeTelemetry_admission token env st).1
         = Raise (RpcAbort UNAUTHENTICATED))
  ∧ (∀ md env st a',
       Auth.verify_jwt_token (default "" (md !! "capability_token"))
         ContextTool.SERVER_NAME env (ContextTool.auth st) = (Ok payload, a') →
       (ContextTool.MultiModalExchange_first_frame md env st).1
         = Raise (RpcAbort UNAUTHENTICATED))
  ∧ (∀ topic_filter token env st a',
       Auth.verify_jwt_token token EventBus.SERVER_NAME env (EventBus.auth st)
         = (Ok payload, a') →
       (EventBus.Subscribe_admission topic_filter token env st).1
         = Raise (RpcAbort UNAUTHENTICATED)).
Proof.
  intros Hcaps. repeat apply conj.
  - intros required. by apply has_capability_no_caps.
  - intros request env st a' Hv.
    unfold ContextTool.RequestContext, ContextTool.authorize_context. run.
    rewrite Hv. run. by rewrite (has_capability_no_caps _ _ Hcaps).
  - intros request env st a' Hv.
    destruct (authorize_tool_no_caps _ _ _ _ _ Hv Hcaps) as (e & s & Hauth).
    unfold ContextTool.InvokeTool. run. by rewrite Hauth.
  - intros request env st a' Hv.
    unfold EventBus.Publish, EventBus.authorize_publish. run.
    rewrite Hv. run. by rewrite !(has_capability_no_caps _ _ Hcaps).
  - intros request env st a' Hv. unfold Registry.Lookup. run.
    case_bool_decide; run; [done |].
    rewrite Hv. run. by rewrite (has_capability_no_caps _ _ Hcaps).
  - intros request env st a' Hv. unfold Registry.Register. run.
    case_bool_decide; run; [done |].
    rewrite Hv. run. by rewrite (has_capability_no_caps _ _ Hcaps).
  - intros token env st a' Hv. unfold ContextTool.SubscribeTelemetry_admission. run.
    rewrite Hv. run. by rewrite (has_capability_no_caps _ _ Hcaps).
  - intros md env st a' Hv. unfold ContextTool.MultiModalExchange_first_frame. run.
    case_bool_decide; run; [done |].
    rewrite Hv. run. by rewrite (has_capability_no_caps _ _ Hcaps).
  - intros topic_filter token env st a' Hv.
    unfold EventBus.Subscribe_admission, EventBus.authorize_subscribe. run.
    rewrite Hv. run. by rewrite !(has_capability_no_caps _ _ Hcaps).
Qed.

End DefaultDeny.

Lemma no_capabilities_no_access_witness :
  (Fixture.claims "dave" ["ContextToolServer"] [] !! "capabilities" = None
   ∨ Fixture.claims "dave" ["ContextToolServer"] [] !! "capabilities" = Some (VList []))
  ∧ (∀ required,
       Auth.has_capability (Fixture.claims "dave" ["ContextToolServer"] []) required
       = Ok false)
  ∧ (ContextTool.RequestContext (Ext := Fixture.demo) (Fixture.context_request "bare")
       (Fixture.env_at 10 ["k1"] (Fixture.row "42" None)) ContextTool.initial).1
    = Raise (RpcAbort UNAUTHENTICATED).
Proof.
  assert (H : Fixture.claims "dave" ["ContextToolServer"] [] !! "capabilities" = None
              ∨ Fixture.claims "dave" ["ContextToolServer"] [] !! "capabilities"
                = Some (VList []))
    by (right; vm_compute; reflexivity).
  destruct (no_capabilities_no_access (Ext := Fixture.demo) _ H)
    as (Hcap & Hctx & _).
  split; [exact H |]. split; [exact Hcap |].
  apply (Hctx _ _ _ (Fixture.fetched 10 ["k1"])).
  vm_compute; reflexivity.
Defined.

(** * Further properties of the code *)

(** ** The key set cache ([_fetch_jwks]) and [verify_jwt_token] *)

Section KeySetMore.
Context `{Ext : Collaborators}.
Import Auth.

Lemma _fetch_jwks_due env st :
  _JWKS_CACHE st = None
  ∨ (time_time env - _JWKS_LAST_FETCH st > JWKS_TTL_SECONDS)%Z →
  _fetch_jwks env st =
    match jwks_endpoint env with
    | Ok doc =>
        (Ok doc, {| _JWKS_CACHE := Some doc; _JWKS_LAST_FETCH := time_time env;
                    jwks_requests := S (jwks_requests st) |})
    | Raise e =>
        (Raise e, {| _JWKS_CACHE := _JWKS_CACHE st;
                     _JWKS_LAST_FETCH := _JWKS_LAST_FETCH st;
                     jwks_requests := S (jwks_requests st) |})
    end.
Proof.
  intros Hdue. unfold _fetch_jwks. destruct (_JWKS_CACHE st) as [cached|]; [| done].
  destruct Hdue as [? | Hstale]; [done |]. by rewrite bool_decide_eq_true_2.
Qed.

(** X1. A key set fetched at time t is served from the cache, with no
    request, at every call up to and including time t + 3600; the first
    call after that asks the endpoint again. *)
Theorem jwks_cached_for_ttl env st doc :
  _JWKS_CACHE st = None
  ∨ (time_time env - _JWKS_LAST_FETCH st > JWKS_TTL_SECONDS)%Z →
  jwks_endpoint env = Ok doc →
  (_fetch_jwks env st).1 = Ok doc
  ∧ jwks_requests (_fetch_jwks env st).2 = S (jwks_requests st)
  ∧ (∀ env2, (time_time env2 - time_time env ≤ 3600)%Z →
       _fetch_jwks env2 (_fetch_jwks env st).2 = (Ok doc, (_fetch_jwks env st).2))
  ∧ (∀ env2, (time_time env2 - time_time env > 3600)%Z →
       (_fetch_jwks env2 (_fetch_jwks env st).2).1 = jwks_endpoint env2
       ∧ jwks_requests (_fetch_jwks env2 (_fetch_jwks env st).2).2
         = S (S (jwks_requests st))).
Proof.
  intros Hdue Hdoc. rewrite (_fetch_jwks_due _ _ Hdue), Hdoc. cbn [fst snd].
  repeat apply conj; try done.
  - intros env2 Hfresh. by apply _fetch_jwks_fresh.
  - intros env2 Hstale. rewrite _fetch_jwks_due by (by right).
    by destruct (jwks_endpoint env2).
Qed.

(** X2. When a refresh is due and the endpoint fails, [verify_jwt_token]
    fails with the endpoint's error, whatever the token and whatever the
    stale set holds; the cached set and its timestamp stay as they were, so
    the next call asks the endpoint again. *)
Theorem verify_fails_when_refresh_fails token audience env st e :
  _JWKS_CACHE st = None
  ∨ (time_time env - _JWKS_LAST_FETCH st > JWKS_TTL_SECONDS)%Z →
  jwks_endpoint env = Raise e →
  (verify_jwt_token token audience env st).1 = Raise e
  ∧ _JWKS_CACHE (verify_jwt_token token audience env st).2 = _JWKS_CACHE st
  ∧ _JWKS_LAST_FETCH (verify_jwt_token token audience env st).2 = _JWKS_LAST_FETCH st
  ∧ jwks_requests (verify_jwt_token token audience env st).2 = S (jwks_requests st).
Proof.
  intros Hdue Hfail. unfold verify_jwt_token. run.
  by rewrite (_fetch_jwks_due _ _ Hdue), Hfail.
Qed.

(** After [_fetch_jwks] has returned a set, the state holds that set and is
    fresh for the time of the call; the count of requests grew by one at
    most. *)
Lemma _fetch_jwks_ok env st doc st' :
  _fetch_jwks env st = (Ok doc, st') →
  _JWKS_CACHE st' = Some doc
  ∧ (time_time env - _JWKS_LAST_FETCH st' ≤ JWKS_TTL_SECONDS)%Z
  ∧ (jwks_requests st ≤ jwks_requests st' ≤ S (jwks_requests st))%nat.
Proof.
  unfold _fetch_jwks.
  assert (Hre : ∀ r s,
    match jwks_endpoint env with
    | Ok doc0 => (Ok doc0, {| _JWKS_CACHE := Some doc0; _JWKS_LAST_FETCH := time_time env;
                              jwks_requests := S (jwks_requests st) |})
    | Raise e0 => (Raise e0, {| _JWKS_CACHE := _JWKS_CACHE st;
                                _JWKS_LAST_FETCH := _JWKS_LAST_FETCH st;
                                jwks_requests := S (jwks_requests st) |})
    end = (r, s) → r = Ok doc → s = st' →
    _JWKS_CACHE st' = Some doc
    ∧ (time_time env - _JWKS_LAST_FETCH st' ≤ JWKS_TTL_SECONDS)%Z
    ∧ (jwks_requests st ≤ jwks_requests st' ≤ S (jwks_requests st))%nat).
  { intros r s Heq -> <-. destruct (jwks_endpoint env); [| done].
    injection Heq as -> <-. cbn. unfold JWKS_TTL_SECONDS. repeat split; lia. }
  destruct (_JWKS_CACHE st) as [cached|] eqn:Hc.
  - case_bool_decide as Hstale.
    + intros Heq. by eapply Hre.
    + intros [= <- <-]. rewrite Hc. repeat split; lia.
  - intros Heq. by eapply Hre.
Qed.

Lemma _fetch_jwks_requests env st :
  (jwks_requests st ≤ jwks_requests (_fetch_jwks env st).2 ≤ S (jwks_requests st))%nat.
Proof.
  unfold _fetch_jwks. destruct (_JWKS_CACHE st); [case_bool_decide |];
    try destruct (jwks_endpoint env); cbn; lia.
Qed.

(** X3. One call of [verify_jwt_token] sends at most one request to the
    key-set endpoint, whatever the token and the state of the cache: the
    retry after an unknown [kid] never sends a second one. *)
Theorem verify_sends_at_most_one_request token audience env st :
  (jwks_requests st ≤ jwks_requests (verify_jwt_token token audience env st).2
   ≤ S (jwks_requests st))%nat.
Proof.
  unfold verify_jwt_token. run.
  destruct (_fetch_jwks env st) as [[doc|e] st1] eqn:Hfetch.
  - pose proof (_fetch_jwks_ok _ _ _ _ Hfetch) as (Hc & Hfresh & Hreq).
    destruct (get_unverified_header token) as [hdr|]; [| done].
    destruct (truthy (py_get hdr "kid")); [| done]. cbn [negb].
    destruct (find_jwk (default [] (doc !! "keys")) (py_get hdr "kid")); run.
    + done.
    + rewrite (_fetch_jwks_fresh _ _ _ Hc Hfresh).
      destruct (find_jwk _ _); run; [done |].
      by destruct (py_get hdr "kid").
  - pose proof (_fetch_jwks_requests env st) as Hreq. by rewrite Hfetch in Hreq.
Qed.

Lemma find_jwk_Some keys kid key :
  find_jwk keys kid = Some key →
  key ∈ keys ∧ value_eqb (py_get key "kid") kid = true.
Proof.
  induction keys as [|k keys IH]; [done |]. cbn [find_jwk].
  destruct (value_eqb (py_get k "kid") kid) eqn:Hk.
  - intros [= <-]. split; [left | done].
  - intros Hfind. destruct (IH Hfind). split; [by right | done].
Qed.

(** X4. Claims returned by [verify_jwt_token] are claims the decoder
    returned for that token under a key of the key set now cached, whose
    [kid] equals the non-empty [kid] of the token's header, for the audience
    asked and the configured issuer. *)
Theorem verify_returns_decoded_claims token audience env st payload st' :
  verify_jwt_token token audience env st = (Ok payload, st') →
  ∃ jwks hdr key,
    _JWKS_CACHE st' = Some jwks
    ∧ get_unverified_header token = Ok hdr
    ∧ truthy (py_get hdr "kid") = true
    ∧ key ∈ default [] (jwks !! "keys")
    ∧ value_eqb (py_get key "kid") (py_get hdr "kid") = true
    ∧ jose_decode token key audience OIDC_ISSUER (time_time env) = Ok payload.
Proof.
  unfold verify_jwt_token. run.
  destruct (_fetch_jwks env st) as [[doc|e] st1] eqn:Hfetch; [| done].
  pose proof (_fetch_jwks_ok _ _ _ _ Hfetch) as (Hc & Hfresh & _).
  destruct (get_unverified_header token) as [hdr|] eqn:Hhdr; [| done].
  destruct (truthy (py_get hdr "kid")) eqn:Hkid; [| done]. cbn [negb].
  destruct (find_jwk (default [] (doc !! "keys")) (py_get hdr "kid")) as [key|]
    eqn:Hfind; run.
  - destruct (jose_decode token key audience OIDC_ISSUER (time_time env))
      as [p|] eqn:Hdec; [| done].
    intros [= <- <-]. apply find_jwk_Some in Hfind as [Hin Heq].
    by exists doc, hdr, key.
  - rewrite (_fetch_jwks_fresh _ _ _ Hc Hfresh), Hfind. by destruct (py_get hdr "kid").
Qed.

(** X5. A token whose header has no [kid], or an empty one, is refused with
    the missing-kid error once the key set has been obtained, whichever keys
    it holds. *)
Theorem verify_refuses_missing_kid token audience env st hdr doc st1 :
  _fetch_jwks env st = (Ok doc, st1) →
  get_unverified_header token = Ok hdr →
  hdr !! "kid" = None ∨ hdr !! "kid" = Some VNone ∨ hdr !! "kid" = Some (VStr "") →
  verify_jwt_token token audience env st
  = (Raise (JWTError "Missing 'kid' in token header"), st1).
Proof.
  intros Hfetch Hhdr Hkid. unfold verify_jwt_token. run. rewrite Hfetch, Hhdr.
  unfold py_get. by destruct Hkid as [-> | [-> | ->]].
Qed.

End KeySetMore.

(** ** The matchers ([has_audience], [has_capability]) on claims of any shape *)

Lemma has_audience_loop_spec (l : list value) (target : string) :
  Auth.has_audience_loop l target = true ↔ ∃ a, VStr a ∈ l ∧ covers a target.
Proof.
  induction l as [|v l IH]; cbn [Auth.has_audience_loop].
  - split; [done |]. intros (a & Ha & _). by apply elem_of_nil in Ha.
  - assert (Hskip : (∀ a, v = VStr a → ¬ covers a target) →
                    (Auth.has_audience_loop l target = true ↔
                     ∃ a, VStr a ∈ v :: l ∧ covers a target)).
    { intros Hno. rewrite IH. split.
      - intros (a & Ha & Hc). exists a. split; [by right | done].
      - intros (a & Ha & Hc). apply elem_of_cons in Ha as [<- | Ha].
        + by destruct (Hno a).
        + by exists a. }
    destruct v as [| z | a | l']; cbn [value_eqb]; try (apply Hskip; by intros).
    case_bool_decide as Heq.
    + split; [| done]. intros _. exists a. split; [left | by left].
    + destruct (endswith a "*" && startswith target (drop_last a)) eqn:Hw.
      * pose proof Hw as Hw'. apply andb_true_iff in Hw' as [He Hs].
        rewrite He, Hs. split; [| done]. intros _.
        exists a. split; [left |]. right. by apply wildcard_test_spec.
      * assert (Hloop : (if endswith a "*"
                         then if startswith target (drop_last a) then true
                              else Auth.has_audience_loop l target
                         else Auth.has_audience_loop l target)
                        = Auth.has_audience_loop l target).
        { destruct (endswith a "*"); [| done].
          by destruct (startswith target (drop_last a)). }
        rewrite Hloop. apply Hskip. intros a' [= <-] [-> | Hc]; [done |].
        apply wildcard_test_spec in Hc. congruence.
Qed.

(** X6. For an audience claim that is one string or a list, [has_audience]
    returns true exactly when some string of the claim equals the target or
    ends with a star and the target starts with what precedes the star;
    entries of a list that are not strings are passed over, they neither
    match nor raise. *)
Theorem has_audience_iff (payload : gmap string value) (l : list value) (target : string) :
  payload !! "aud" = Some (VList l) ∨ (∃ a, payload !! "aud" = Some (VStr a) ∧ l = [VStr a]) →
  ∃ b, Auth.has_audience payload target = Ok b
       ∧ (b = true ↔ ∃ a, VStr a ∈ l ∧ covers a target).
Proof.
  intros Haud. exists (Auth.has_audience_loop l target).
  split; [| apply has_audience_loop_spec].
  unfold Auth.has_audience, py_get.
  destruct Haud as [-> | (a & -> & ->)]; cbn [from_option id]; [| done].
  cbn [truthy]. by case_bool_decide as Hnil; [rewrite Hnil |].
Qed.

Lemma has_audience_iff_witness :
  (Fixture.claims "carol" ["A"; "Context*"] [] !! "aud"
     = Some (VList [VStr "A"; VStr "Context*"])
   ∨ ∃ a, Fixture.claims "carol" ["A"; "Context*"] [] !! "aud" = Some (VStr a)
          ∧ [VStr "A"; VStr "Context*"] = [VStr a])
  ∧ ∃ b, Auth.has_audience (Fixture.claims "carol" ["A"; "Context*"] []) "ContextToolServer"
         = Ok b
         ∧ (b = true ↔ ∃ a, VStr a ∈ [VStr "A"; VStr "Context*"]
                            ∧ covers a "ContextToolServer").
Proof.
  assert (H : Fixture.claims "carol" ["A"; "Context*"] [] !! "aud"
                = Some (VList [VStr "A"; VStr "Context*"])
              ∨ ∃ a, Fixture.claims "carol" ["A"; "Context*"] [] !! "aud" = Some (VStr a)
                     ∧ [VStr "A"; VStr "Context*"] = [VStr a])
    by (left; vm_compute; reflexivity).
  split; [exact H |].
  exact (has_audience_iff _ _ "ContextToolServer" H).
Defined.

(** X7. Claims without [aud], or whose [aud] is [None], zero or the empty
    list, match no target; an [aud] that is a non-zero number makes
    [has_audience] raise [TypeError]. *)
Theorem has_audience_without_audience (payload : gmap string value) (target : string) :
  payload !! "aud" = None ∨ payload !! "aud" = Some VNone
  ∨ payload !! "aud" = Some (VInt 0) ∨ payload !! "aud" = Some (VList []) →
  Auth.has_audience payload target = Ok false
  ∧ ∀ z, z ≠ 0%Z →
      Auth.has_audience (<["aud" := VInt z]> payload) target = Raise TypeError.
Proof.
  unfold Auth.has_audience, py_get. intros Haud. split.
  - by destruct Haud as [-> | [-> | [-> | ->]]].
  - intros z Hz. rewrite lookup_insert_eq. cbn. by rewrite bool_decide_eq_false_2.
Qed.

Lemma has_audience_without_audience_witness :
  ((∅ : gmap string value) !! "aud" = None ∨ (∅ : gmap string value) !! "aud" = Some VNone
   ∨ (∅ : gmap string value) !! "aud" = Some (VInt 0)
   ∨ (∅ : gmap string value) !! "aud" = Some (VList []))
  ∧ Auth.has_audience ∅ "ContextToolServer" = Ok false
  ∧ Auth.has_audience (<["aud" := VInt 5]> ∅) "ContextToolServer" = Raise TypeError.
Proof.
  assert (H : (∅ : gmap string value) !! "aud" = None
              ∨ (∅ : gmap string value) !! "aud" = Some VNone
              ∨ (∅ : gmap string value) !! "aud" = Some (VInt 0)
              ∨ (∅ : gmap string value) !! "aud" = Some (VList []))
    by (left; reflexivity).
  destruct (has_audience_without_audience ∅ "ContextToolServer" H) as [Hnone Hint].
  split; [exact H |]. split; [exact Hnone |].
  apply Hint. discriminate.
Defined.

Lemma has_capability_loop_none_covers (G : list string) (R : string) (rest : list value) :
  (∀ g, g ∈ G → ¬ covers g R) →
  Auth.has_capability_loop ((VStr <$> G) ++ rest) R = Auth.has_capability_loop rest R.
Proof.
  induction G as [|g G IH]; intros Hno; [done |].
  cbn [fmap list_fmap app Auth.has_capability_loop value_eqb].
  assert (Hg : ¬ covers g R) by (apply Hno; left).
  rewrite bool_decide_eq_false_2 by (intros ->; apply Hg; by left).
  assert (Hw : (endswith g "*" && startswith R (drop_last g)) = false).
  { apply not_true_is_false. intros Hw. apply Hg. right. by apply wildcard_test_spec. }
  rewrite <- IH by (intros g' Hg'; apply Hno; by right).
  destruct (endswith g "*"); [| done]. by destruct (startswith R (drop_last g)).
Qed.

(** X8. [has_capability] examines the entries in order: an entry that grants
    the capability settles the answer before anything behind it is looked
    at, and an entry that is not a string, met before any such entry, makes
    it raise [AttributeError]. *)
Theorem has_capability_non_string_entry (payload : gmap string value)
    (G : list string) (v : value) (rest : list value) (R : string) :
  payload !! "capabilities" = Some (VList ((VStr <$> G) ++ v :: rest)) →
  (∀ s, v ≠ VStr s) →
  ((∃ g, g ∈ G ∧ covers g R) → Auth.has_capability payload R = Ok true)
  ∧ ((∀ g, g ∈ G → ¬ covers g R) → Auth.has_capability payload R = Raise AttributeError).
Proof.
  intros Hcaps Hv. unfold Auth.has_capability, py_get_default. rewrite Hcaps.
  clear Hcaps. cbn [from_option id py_iter]. split.
  - intros (g & Hg & Hc). apply list_elem_of_split in Hg as (G1 & G2 & ->).
    rewrite fmap_app, <- app_assoc. cbn [fmap list_fmap app].
    induction G1 as [|g1 G1 IH].
    + cbn [fmap list_fmap app Auth.has_capability_loop value_eqb].
      case_bool_decide as Heq; [done |].
      destruct Hc as [-> | Hc]; [done |].
      apply wildcard_test_spec, andb_true_iff in Hc as [-> ->]. done.
    + cbn [fmap list_fmap app Auth.has_capability_loop value_eqb].
      case_bool_decide; [done |]. rewrite IH.
      destruct (endswith g1 "*"); [| done]. by destruct (startswith R (drop_last g1)).
  - intros Hno. rewrite has_capability_loop_none_covers by done.
    cbn [Auth.has_capability_loop]. destruct v; try done. by destruct (Hv s).
Qed.

Lemma has_capability_non_string_entry_witness :
  Auth.has_capability {[ "capabilities" := VList [VStr "db:*"; VInt 7; VStr "tool:*"] ]}
    "db:inventory:read" = Ok true
  ∧ Auth.has_capability {[ "capabilities" := VList [VStr "db:*"; VInt 7; VStr "tool:*"] ]}
      "tool:compute_pricing" = Raise AttributeError.
Proof.
  assert (Hc : ({[ "capabilities" := VList [VStr "db:*"; VInt 7; VStr "tool:*"] ]}
                 : gmap string value) !! "capabilities"
               = Some (VList ((VStr <$> ["db:*"]) ++ VInt 7 :: [VStr "tool:*"])))
    by (vm_compute; reflexivity).
  assert (Hv : ∀ s, VInt 7 ≠ VStr s) by done.
  split.
  - apply (proj1 (has_capability_non_string_entry _ _ _ _ "db:inventory:read" Hc Hv)).
    exists "db:*". split; [left |]. right. exists "db:". split; [done |].
    by exists "inventory:read".
  - apply (proj2 (has_capability_non_string_entry _ _ _ _ "tool:compute_pricing" Hc Hv)).
    intros g Hg. apply list_elem_of_singleton in Hg as ->.
    intros [Heq | Hw]; [done |].
    apply wildcard_test_spec in Hw. vm_compute in Hw. discriminate.
Defined.

Lemma chars_app (p q : string) : chars (p +:+ q) = chars p ++ chars q.
Proof. induction p as [|a p IH]; [done |]. cbn [chars app]. by rewrite <- IH. Qed.

Lemma has_capability_loop_star_char (p : string) (rest : list value) (R : string) :
  Auth.has_capability_loop (chars p ++ VStr "*" :: rest) R = Ok true.
Proof.
  induction p as [|a p IH]; cbn [chars app Auth.has_capability_loop value_eqb].
  - case_bool_decide; [done |]. reflexivity.
  - case_bool_decide; [done |].
    destruct (endswith (String a "") "*"); [reflexivity | exact IH].
Qed.

(** X9. When the capabilities claim is a single string instead of a list,
    [has_capability] walks through its characters: a claim that contains a
    star anywhere grants every capability. *)
Theorem has_capability_scalar_with_star (payload : gmap string value) (p q R : string) :
  payload !! "capabilities" = Some (VStr (p +:+ "*" +:+ q)) →
  Auth.has_capability payload R = Ok true.
Proof.
  intros Hcaps. unfold Auth.has_capability, py_get_default. rewrite Hcaps.
  cbn [from_option id py_iter]. rewrite chars_app.
  change (chars ("*" +:+ q)) with (VStr "*" :: chars q).
  apply has_capability_loop_star_char.
Qed.

Lemma has_capability_scalar_with_star_witness :
  ({[ "capabilities" := VStr "db:inventory:*" ]} : gmap string value) !! "capabilities"
    = Some (VStr ("db:inventory:" +:+ "*" +:+ ""))
  ∧ Auth.has_capability {[ "capabilities" := VStr "db:inventory:*" ]} "registry:register"
    = Ok true.
Proof.
  assert (H : ({[ "capabilities" := VStr "db:inventory:*" ]} : gmap string value)
                !! "capabilities"
              = Some (VStr ("db:inventory:" +:+ "*" +:+ "")))
    by (vm_compute; reflexivity).
  split; [exact H |].
  exact (has_capability_scalar_with_star _ _ _ "registry:register" H).
Defined.

(** ** Delegation ([verify_delegation_proof] and its caller [InvokeTool]) *)

Lemma value_eqb_eq : ∀ a b : value, value_eqb a b = true → a = b.
Proof.
  fix IH 1. intros [| x | x | xs] [| y | y | ys]; cbn [value_eqb]; try done.
  - intros Hxy%bool_decide_eq_true. by subst.
  - intros Hxy%bool_decide_eq_true. by subst.
  - intros H. f_equal. revert ys H.
    induction xs as [|x xs IHxs]; intros [|y ys]; try done.
    intros [Hx Hr]%andb_true_iff. f_equal; [by apply IH | by apply IHxs].
Qed.

Lemma has_capability_loop_exact (caps : list value) (R : string) :
  VStr R ∈ caps → Auth.has_capability_loop caps R ≠ Ok false.
Proof.
  induction caps as [|cap caps IH]; intros Hin.
  - by apply elem_of_nil in Hin.
  - cbn [Auth.has_capability_loop].
    destruct (value_eqb cap (VStr R)) eqn:Heq; [done |].
    apply elem_of_cons in Hin as [<- | Hin].
    + cbn [value_eqb] in Heq. by rewrite bool_decide_eq_true_2 in Heq.
    + destruct cap as [| z | c | l]; try done.
      destruct (endswith c "*"); [| by apply IH].
      destruct (startswith R (drop_last c)); [done | by apply IH].
Qed.

Section DelegationMore.
Context `{Ext : Collaborators}.
Import ContextTool.

(** X10. A delegation proof that [verify_delegation_proof] accepts has
    verified as a token for the delegatee and carries the same [iss] and the
    same [sub] as the parent claims and the delegatee's own name in
    [delegatee]; accepting it changes nothing but what verifying it
    changes. *)
Theorem accepted_delegation_keeps_identity token delegatee parent env st d st' :
  Auth.verify_delegation_proof token delegatee parent env st = (Ok d, st') →
  Auth.verify_jwt_token token delegatee env st = (Ok d, st')
  ∧ py_get d "iss" = py_get parent "iss"
  ∧ py_get d "sub" = py_get parent "sub"
  ∧ d !! "delegatee" = Some (VStr delegatee).
Proof.
  intros Hacc. apply verify_delegation_proof_accepted in Hacc
    as (Hv & Hi%value_eqb_eq & Hs%value_eqb_eq & Hd%value_eqb_eq & _).
  repeat split; try done.
  unfold py_get in Hd. by destruct (d !! "delegatee") as [v|]; simplify_eq/=.
Qed.

(** X11. The delegation branch of [InvokeTool] grants nothing. When the
    caller's own claims do not grant [tool:<tool_name>], the call is aborted
    whatever delegation proof comes with it, provided the capabilities of
    the delegation token are a list: a proof that is accepted holds only
    entries of the parent's list, and an entry equal to the required
    capability would already have granted it. *)
Theorem InvokeTool_delegation_never_grants request env st parent a' :
  Auth.verify_jwt_token (tool_capability_token request) SERVER_NAME env (auth st)
    = (Ok parent, a') →
  Auth.has_capability parent ("tool:" +:+ tool_name request) = Ok false →
  (∀ d s, Auth.verify_jwt_token (agent_delegation_proof request) SERVER_NAME env a'
          = (Ok d, s) →
          ∃ l, py_get_default d "capabilities" (VList []) = VList l) →
  (InvokeTool request env st).1 = Raise (RpcAbort UNAUTHENTICATED).
Proof.
  intros Hp Hc Hlist.
  assert (Hauth : ∃ e s, authorize_tool request env st = (Raise e, s)).
  { unfold authorize_tool. run. rewrite Hp. run. rewrite Hc. run.
    case_bool_decide; run; [by eexists _, _ |].
    destruct (Auth.verify_delegation_proof _ _ _ _ _) as [[d|e] s] eqn:Hdel;
      [| by eexists _, _].
    apply verify_delegation_proof_accepted in Hdel
      as (Hv & _ & _ & _ & orig_caps & del_caps & Ho & Hd & Hsub).
    destruct (Hlist _ _ Hv) as [l Hl]. rewrite Hl in Hd |- *.
    assert (del_caps = l) as ->.
    { unfold py_set in Hd. cbn [py_iter] in Hd.
      by destruct (forallb hashable l); simplify_eq. }
    cbn [py_in].
    destruct (existsb (λ y, value_eqb y (VStr ("tool:" +:+ tool_name request))) l)
      eqn:Hex; run; [| by eexists _, _].
    exfalso. apply existsb_exists in Hex as (y & Hy & Heq%value_eqb_eq). subst y.
    unfold issubset in Hsub. rewrite forallb_forall in Hsub.
    apply Hsub, existsb_exists in Hy as (x & Hx & Hxeq%value_eqb_eq). subst x.
    apply list_elem_of_In in Hx.
    unfold Auth.has_capability in Hc. unfold py_set in Ho.
    destruct (py_iter (py_get_default parent "capabilities" (VList [])))
      as [caps|]; [| done].
    destruct (forallb hashable caps); [| done]. injection Ho as <-.
    by apply (has_capability_loop_exact _ _ Hx). }
  destruct Hauth as (e & s & Hauth). unfold InvokeTool. run. by rewrite Hauth.
Qed.

End DelegationMore.

Lemma accepted_delegation_keeps_identity_witness :
  (Auth.verify_delegation_proof (Ext := Fixture.demo) "delegation" "ContextToolServer"
     (Fixture.claims "alice" ["ContextToolServer"] ["db:x"; "tool:compute_pricing"])
     (Fixture.env_at 100 ["k1"] Fixture.no_db) Auth.initial).1
  = Ok (<["delegatee" := VStr "ContextToolServer"]>
          (Fixture.claims "alice" ["ContextToolServer"] ["tool:compute_pricing"]))
  ∧ py_get (<["delegatee" := VStr "ContextToolServer"]>
              (Fixture.claims "alice" ["ContextToolServer"] ["tool:compute_pricing"])) "sub"
    = py_get (Fixture.claims "alice" ["ContextToolServer"] ["db:x"; "tool:compute_pricing"])
        "sub".
Proof.
  assert (H : Auth.verify_delegation_proof (Ext := Fixture.demo) "delegation"
                "ContextToolServer"
                (Fixture.claims "alice" ["ContextToolServer"] ["db:x"; "tool:compute_pricing"])
                (Fixture.env_at 100 ["k1"] Fixture.no_db) Auth.initial
              = (Ok (<["delegatee" := VStr "ContextToolServer"]>
                       (Fixture.claims "alice" ["ContextToolServer"]
                          ["tool:compute_pricing"])),
                 Fixture.fetched 100 ["k1"]))
    by (vm_compute; reflexivity).
  split; [by rewrite H |].
  exact (proj1 (proj2 (proj2 (accepted_delegation_keeps_identity
                                (Ext := Fixture.demo) _ _ _ _ _ _ _ H)))).
Defined.

Lemma InvokeTool_delegation_never_grants_witness :
  (ContextTool.InvokeTool (Ext := Fixture.demo)
     {| ContextTool.tool_name := "compute_pricing";
        ContextTool.arguments := {[ "stock_count" := "10" ]};
        ContextTool.tool_capability_token := "reader";
        ContextTool.agent_delegation_proof := "delegation" |}
     (Fixture.env_at 100 ["k1"] Fixture.no_db) ContextTool.initial).1
  = Raise (RpcAbort UNAUTHENTICATED).
Proof.
  apply (InvokeTool_delegation_never_grants (Ext := Fixture.demo) _ _ _
           (Fixture.claims "alice" ["ContextToolServer"] ["db:inventory:*"])
           (Fixture.fetched 100 ["k1"])).
  - vm_compute; reflexivity.
  - vm_compute; reflexivity.
  - intros d s Hd. exists [VStr "tool:compute_pricing"].
    vm_compute in Hd. injection Hd as <- _. vm_compute; reflexivity.
Defined.

(** ** The circuit breaker over a history of calls *)

Lemma trailing_failures_last (history : list (Z * bool)) :
  (1 ≤ trailing_failures history)%nat → ∃ t, last_failure history = Some t.
Proof.
  unfold trailing_failures, last_failure.
  induction history as [|[t ok] history IH] using rev_ind; [cbn; lia |].
  rewrite !foldl_app. cbn [foldl snd fst]. destruct ok; [lia | by eexists].
Qed.

(** X12. Starting from a new breaker and recording any history of calls:
    the failure count is the number of failures since the last success,
    [last_failure_time] is the time of the last failure ever recorded
    (a success does not clear it), and the breaker is open exactly when there
    is at least one failure since the last success and at least [threshold]
    of them. In every such state [before_call] returns without raising, and
    it refuses exactly when the breaker is open and the last failure is no
    more than [recovery_time] back. *)
Theorem breaker_follows_history (threshold recovery_time now : Z)
    (history : list (Z * bool)) :
  let self := record_calls history (Middleware.CircuitBreaker_init threshold recovery_time) in
  Middleware.failure_count self = Z.of_nat (trailing_failures history)
  ∧ Middleware.last_failure_time self = last_failure history
  ∧ (Middleware.open self = true ↔
       (1 ≤ trailing_failures history)%nat
       ∧ (threshold ≤ Z.of_nat (trailing_failures history))%Z)
  ∧ ∃ admitted,
      Middleware.before_call now self = Ok admitted
      ∧ (admitted = false ↔
           Middleware.open self = true
           ∧ ∃ t, last_failure history = Some t ∧ (now - t ≤ recovery_time)%Z).
Proof.
  cbn zeta.
  assert (Hstate :
    Middleware.failure_count
      (record_calls history (Middleware.CircuitBreaker_init threshold recovery_time))
    = Z.of_nat (trailing_failures history)
    ∧ Middleware.last_failure_time
        (record_calls history (Middleware.CircuitBreaker_init threshold recovery_time))
      = last_failure history
    ∧ (Middleware.open
         (record_calls history (Middleware.CircuitBreaker_init threshold recovery_time))
       = true ↔
       (1 ≤ trailing_failures history)%nat
       ∧ (threshold ≤ Z.of_nat (trailing_failures history))%Z)
    ∧ Middleware.threshold
        (record_calls history (Middleware.CircuitBreaker_init threshold recovery_time))
      = threshold
    ∧ Middleware.recovery_time
        (record_calls history (Middleware.CircuitBreaker_init threshold recovery_time))
      = recovery_time).
  { unfold record_calls, trailing_failures, last_failure.
    induction history as [|[t ok] history IH] using rev_ind.
    - cbn. repeat split; try done; lia.
    - rewrite !foldl_app. cbn [foldl fst snd].
      set (cb := foldl (λ cb (e : Z * bool), Middleware.after_call e.1 e.2 cb) _ history)
        in *.
      set (n := foldl (λ n (e : Z * bool), if e.2 then 0 else S n) 0 history) in *.
      clearbody cb n.
      destruct IH as (Hc & Hl & Ho & Ht & Hr).
      destruct ok; unfold Middleware.after_call;
        cbn [Middleware.failure_count Middleware.last_failure_time Middleware.open
             Middleware.threshold Middleware.recovery_time].
      + repeat split; try done; lia.
      + rewrite Hc, Ht. split; [lia |]. split; [done |]. split; [| done].
        case_bool_decide as Hge.
        * split; [| done]. intros _. split; lia.
        * rewrite Ho. split; intros [? ?]; lia. }
  destruct Hstate as (Hc & Hl & Ho & _ & Hr).
  do 3 (split; [done |]).
  unfold Middleware.before_call. rewrite Hl, Hr.
  destruct (Middleware.open _) eqn:Hopen.
  - destruct (trailing_failures_last history) as [t Ht]; [by apply Ho |].
    rewrite Ht. case_bool_decide as Hrec.
    + exists true. split; [done |]. split; [done |].
      intros (_ & t' & [= <-] & Hle). lia.
    + exists false. split; [done |]. split; [| done]. intros _.
      split; [done |]. exists t. split; [done | lia].
  - exists true. split; [done |]. split; [done |]. by intros [? _].
Qed.

(** ** The registry: [register_in_redis], [Register], [Lookup] *)

Section RegistryMore.
Context `{Ext : Collaborators}.
Import Registry.

(** X13. A record written by [register_in_redis] is found by
    [lookup_in_redis] under the name it was registered with, for every list
    of filters one of which is matched by one of its capabilities, with the
    address and capabilities just written; it is the only match with that
    name, so registering a name again replaces what was there; records under
    other names stay. *)
Theorem register_then_lookup name url caps env st filters cap f :
  cap ∈ caps → f ∈ filters → covers cap f →
  endpoint_of name {| grpc_url := url; capabilities := caps; registered_at := time_time env |}
    ∈ lookup_in_redis filters (REDIS (register_in_redis name url caps env st).2)
  ∧ (∀ e, e ∈ lookup_in_redis filters (REDIS (register_in_redis name url caps env st).2) →
          server_name e = name →
          e = {| server_name := name; ep_grpc_url := url; ep_capabilities := caps |})
  ∧ (∀ other, other ≠ name →
       REDIS (register_in_redis name url caps env st).2 !! _redis_key_for other
       = REDIS st !! _redis_key_for other).
Proof.
  intros Hcap Hf Hcov. unfold register_in_redis. run. repeat apply conj.
  - apply lookup_in_redis_elem. eexists name, _. split; [apply lookup_insert_eq |].
    split; [done |]. apply answers_spec. by exists cap, f.
  - intros e He Hname. apply lookup_in_redis_elem in He as (name' & v & Hv & -> & _).
    cbn in Hname. subst name'. rewrite lookup_insert_eq in Hv. by injection Hv as <-.
  - intros other Hne. apply lookup_insert_ne. intros Heq.
    by apply _redis_key_for_inj in Heq.
Qed.

(** X14. A Register call whose token verifies and holds [registry:register],
    with a non-empty [grpc-url] in the call metadata and a [sub] in the
    claims, returns success and writes the record of the request under its
    name, with that address and the time of the call. *)
Theorem Register_stores_record request env st token payload a' url sub :
  invocation_metadata request !! "registration_token" = Some token → token ≠ "" →
  Auth.verify_jwt_token token SERVER_NAME env (auth st) = (Ok payload, a') →
  Auth.has_capability payload "registry:register" = Ok true →
  invocation_metadata request !! "grpc-url" = Some url → url ≠ "" →
  payload !! "sub" = Some sub →
  (Register request env st).1
  = Ok {| reg_success := true; reg_message := "Registered successfully" |}
  ∧ REDIS (Register request env st).2
    = <[_redis_key_for (reg_server_name request) :=
          {| grpc_url := url; capabilities := reg_capabilities request;
             registered_at := time_time env |}]> (REDIS st).
Proof.
  intros Htok Hne Hv Hc Hurl Hune Hs. unfold Register, register_in_redis. run.
  rewrite Htok. cbn [from_option id]. rewrite bool_decide_eq_false_2 by done. run.
  rewrite Hv. run. rewrite Hc. run. rewrite Hurl. cbn [from_option id].
  rewrite bool_decide_eq_false_2 by done. run. unfold py_index. by rewrite Hs.
Qed.

(** X15. A Register call without [grpc-url] in its metadata, or with an empty
    one, writes nothing. Its INVALID_ARGUMENT abort is raised inside the
    handler's own [try] and caught there: the caller is answered
    UNAUTHENTICATED. *)
Theorem Register_without_grpc_url request env st token payload a' :
  invocation_metadata request !! "registration_token" = Some token → token ≠ "" →
  Auth.verify_jwt_token token SERVER_NAME env (auth st) = (Ok payload, a') →
  Auth.has_capability payload "registry:register" = Ok true →
  invocation_metadata request !! "grpc-url" = None
  ∨ invocation_metadata request !! "grpc-url" = Some "" →
  (Register request env st).1 = Raise (RpcAbort UNAUTHENTICATED)
  ∧ REDIS (Register request env st).2 = REDIS st.
Proof.
  intros Htok Hne Hv Hc Hurl. unfold Register. run.
  rewrite Htok. cbn [from_option id]. rewrite bool_decide_eq_false_2 by done. run.
  rewrite Hv. run. rewrite Hc. run. by destruct Hurl as [-> | ->].
Qed.

(** X16. A Register call that is in order except that the claims of its
    token have no [sub] is answered UNAUTHENTICATED, yet the record has been
    written: the failure comes from building the telemetry record, after
    [register_in_redis] has run. *)
Theorem Register_without_sub_still_stores request env st token payload a' url :
  invocation_metadata request !! "registration_token" = Some token → token ≠ "" →
  Auth.verify_jwt_token token SERVER_NAME env (auth st) = (Ok payload, a') →
  Auth.has_capability payload "registry:register" = Ok true →
  invocation_metadata request !! "grpc-url" = Some url → url ≠ "" →
  payload !! "sub" = None →
  (Register request env st).1 = Raise (RpcAbort UNAUTHENTICATED)
  ∧ REDIS (Register request env st).2
    = <[_redis_key_for (reg_server_name request) :=
          {| grpc_url := url; capabilities := reg_capabilities request;
             registered_at := time_time env |}]> (REDIS st).
Proof.
  intros Htok Hne Hv Hc Hurl Hune Hs. unfold Register, register_in_redis. run.
  rewrite Htok. cbn [from_option id]. rewrite bool_decide_eq_false_2 by done. run.
  rewrite Hv. run. rewrite Hc. run. rewrite Hurl. cbn [from_option id].
  rewrite bool_decide_eq_false_2 by done. run. unfold py_index. by rewrite Hs.
Qed.

(** X17. For a caller whose audience claim is one string without a trailing
    star, Lookup returns no endpoint but those registered under that very
    string, whatever the registry holds and whatever the filters. *)
Theorem Lookup_scalar_audience request env st payload a' sub a :
  requester_token request ≠ "" →
  Auth.verify_jwt_token (requester_token request) SERVER_NAME env (auth st)
    = (Ok payload, a') →
  Auth.has_capability payload "registry:lookup" = Ok true →
  payload !! "sub" = Some sub →
  payload !! "aud" = Some (VStr a) → endswith a "*" = false →
  ∃ endpoints, (Lookup request env st).1 = Ok endpoints
               ∧ ∀ e, e ∈ endpoints → server_name e = a.
Proof.
  intros Htok Hv Hc Hs Ha Hstar.
  assert (Haud : ∀ name, Auth.has_audience payload name = Ok (bool_decide (a = name))).
  { intros name. unfold Auth.has_audience, py_get. rewrite Ha.
    cbn [from_option id Auth.has_audience_loop value_eqb]. rewrite Hstar.
    by case_bool_decide. }
  eexists. split.
  - eapply Lookup_authorized; try done. by rewrite Haud.
  - intros e [He _]%list_elem_of_filter. rewrite Haud in He.
    injection He as He. by apply bool_decide_eq_true in He.
Qed.

(** X18. Lookup with an empty list of filters returns no endpoint, not every
    endpoint. *)
Theorem Lookup_without_filters request env st payload a' sub :
  requester_token request ≠ "" →
  Auth.verify_jwt_token (requester_token request) SERVER_NAME env (auth st)
    = (Ok payload, a') →
  Auth.has_capability payload "registry:lookup" = Ok true →
  payload !! "sub" = Some sub →
  is_ok (Auth.has_audience payload SERVER_NAME) = true →
  capability_filter request = [] →
  (Lookup request env st).1 = Ok [].
Proof.
  intros Htok Hv Hc Hs Haud Hnil.
  rewrite (Lookup_authorized _ _ _ _ _ _ Htok Hv Hc Hs Haud), Hnil. f_equal.
  assert (Hempty : lookup_in_redis [] (REDIS st) = []).
  { destruct (lookup_in_redis [] (REDIS st)) as [|e l] eqn:Hl; [done |].
    assert (He : e ∈ lookup_in_redis [] (REDIS st)) by (rewrite Hl; left).
    by apply lookup_in_redis_elem in He as (? & ? & _ & _ & ?). }
  by rewrite Hempty.
Qed.

End RegistryMore.
